(** * genai-prices: the price lister [list.py]

    A shallow embedding of [list.py] and the properties of its
    filter / flatten / sort / render pipeline.

    Modelling conventions.
    - Text is a Rocq [string] of ASCII characters; [str.lower] maps
      [A-Z] to [a-z] and leaves every other character alone.
    - A Python [float] is an IEEE binary64 value, a [spec_float] at
      precision 53 and maximal exponent 1024, with the rounding, the
      infinities, the signed zeros and NaN of the real thing.
    - A value read from JSON is a [pyval]; a JSON object is an
      association list read by first match (a loaded [dict] has unique
      keys).
    - Provider and model records are objects whose [id] and [name], when
      present, are strings and whose [models], when present, is a list of
      objects (the shape of the data file); any key may be absent, and
      [prices] is an arbitrary value.
    - Python exceptions are explicit: a function that can raise returns a
      [result].
    - Standard output is the list of the strings written to it, one per
      [print] call (newline included) or prompt. *)

From Stdlib Require Import ZArith List String Ascii Bool Lia.
From Stdlib Require Import Permutation Sorted.
From Stdlib Require Import Floats.SpecFloat.
From Stdlib Require Decimal DecimalString.
Import ListNotations.

Set Warnings "-register-all".

Open Scope string_scope.
Open Scope list_scope.
Open Scope Z_scope.

Infix "+++" := String.append (right associativity, at level 60).

(** ** Exceptions *)

Inductive exn : Type :=
| TypeError
| ValueError
| OverflowError
| EOFError.

Inductive result (A : Type) : Type :=
| Ok (a : A)
| Raise (e : exn).

Arguments Ok {A} a.
Arguments Raise {A} e.

Definition bind {A B : Type} (r : result A) (k : A -> result B) : result B :=
  match r with
  | Ok a => k a
  | Raise e => Raise e
  end.

Notation "x <- r ;; k" := (bind r (fun x => k))
  (at level 61, r at next level, right associativity).

(** [try: body except (TypeError, ValueError): handler] *)
Definition catches (e : exn) : bool :=
  match e with
  | TypeError | ValueError => true
  | _ => false
  end.

(** ** Text *)

Module Text.

Definition is_upper (c : ascii) : bool :=
  ((65 <=? nat_of_ascii c) && (nat_of_ascii c <=? 90))%nat.

Definition lower_char (c : ascii) : ascii :=
  if is_upper c then ascii_of_nat (nat_of_ascii c + 32) else c.

(** [s.lower()] *)
Fixpoint lower (s : string) : string :=
  match s with
  | EmptyString => EmptyString
  | String c s' => String (lower_char c) (lower s')
  end.

(** [s.startswith(p)] *)
Fixpoint startswith (p s : string) : bool :=
  match p, s with
  | EmptyString, _ => true
  | String _ _, EmptyString => false
  | String a p', String b s' => Ascii.eqb a b && startswith p' s'
  end.

(** [sub in s] *)
Fixpoint contains (sub s : string) : bool :=
  startswith sub s ||
  match s with
  | EmptyString => false
  | String _ s' => contains sub s'
  end.

(** [c * n] for a one-character string [c] *)
Fixpoint repeat_char (c : ascii) (n : nat) : string :=
  match n with
  | O => EmptyString
  | S n' => String c (repeat_char c n')
  end.

(** [f"{s:<{w}}"] *)
Definition ljust (s : string) (w : nat) : string :=
  s +++ repeat_char " " (w - String.length s).

(** [f"{s:>{w}}"] *)
Definition rjust (s : string) (w : nat) : string :=
  repeat_char " " (w - String.length s) +++ s.

(** [sep.join(parts)] *)
Fixpoint join (sep : string) (parts : list string) : string :=
  match parts with
  | [] => EmptyString
  | [p] => p
  | p :: rest => p +++ sep +++ join sep rest
  end.

(** [str.isspace] on one ASCII character: TAB..CR, FS..US and SPACE. *)
Definition is_space (c : ascii) : bool :=
  let n := nat_of_ascii c in
  (((9 <=? n) && (n <=? 13)) || ((28 <=? n) && (n <=? 32)))%nat.

Fixpoint lstrip_by (p : ascii -> bool) (l : list ascii) : list ascii :=
  match l with
  | [] => []
  | c :: l' => if p c then lstrip_by p l' else l
  end.

Definition strip_by (p : ascii -> bool) (l : list ascii) : list ascii :=
  rev (lstrip_by p (rev (lstrip_by p l))).

(** [s.strip()] *)
Definition strip (s : string) : string :=
  string_of_list_ascii (strip_by is_space (list_ascii_of_string s)).

(** Decimal numeral of a natural number, [str(n)]. *)
Definition of_N (n : N) : string := DecimalString.NilZero.string_of_uint (N.to_uint n).

Definition nl : string := String (ascii_of_nat 10) EmptyString.

End Text.

(** [max(a, max(xs))] over lengths, the fold of Python's [max]. *)
Definition max_list (l : list nat) : nat := fold_right Nat.max O l.

(** ** Floats *)

Definition float : Type := spec_float.

Module Float.

Definition prec : Z := 53.
Definition emax : Z := 1024.

Definition zero : float := S754_zero false.

Definition add : float -> float -> float := SFadd prec emax.
Definition ltb : float -> float -> bool := SFltb.
Definition leb : float -> float -> bool := SFleb.
Definition eqb : float -> float -> bool := SFeqb.

Definition is_nan (f : float) : bool :=
  match f with
  | S754_nan => true
  | _ => false
  end.

Definition is_finite (f : float) : bool :=
  match f with
  | S754_zero _ | S754_finite _ _ _ => true
  | _ => false
  end.

(** The integer [z], rounded to the nearest float (ties to even). *)
Definition of_Z (z : Z) : float := binary_normalize prec emax z 0 false.

(** [float(z)] for a Python [int]: the rounded value, or OverflowError
    when it does not fit. *)
Definition of_int (z : Z) : result float :=
  match of_Z z with
  | S754_infinity _ => Raise OverflowError
  | f => Ok f
  end.

(** The decimal [m * 10^e10], correctly rounded, with the sign [neg]. *)
Definition of_decimal (neg : bool) (m : N) (e10 : Z) : float :=
  match m with
  | N0 => S754_zero neg
  | Npos p =>
      if 0 <=? e10
      then binary_round prec emax neg (p * Z.to_pos (10 ^ e10)) 0
      else
        let '(q, e', loc) :=
          SFdiv_core_binary prec emax (Zpos p) 0 (10 ^ (- e10)) 0 in
        binary_round_aux prec emax neg q e' loc
  end.

(** *** Parsing: [float(s)] for a string *)

Definition is_digit (c : ascii) : bool :=
  ((48 <=? nat_of_ascii c) && (nat_of_ascii c <=? 57))%nat.

(** C's [isspace]: TAB..CR and SPACE. *)
Definition is_c_space (c : ascii) : bool :=
  let n := nat_of_ascii c in
  (((9 <=? n) && (n <=? 13)) || (n =? 32))%nat.

Definition underscore : ascii := "_"%char.

(** Underscores may stand only between two digits; they are dropped. *)
Fixpoint drop_underscores (prev : ascii) (l : list ascii)
  : option (list ascii) :=
  match l with
  | [] => if Ascii.eqb prev underscore then None else Some []
  | c :: l' =>
      if Ascii.eqb c underscore
      then if is_digit prev then drop_underscores c l' else None
      else if Ascii.eqb prev underscore && negb (is_digit c) then None
      else option_map (cons c) (drop_underscores c l')
  end.

Fixpoint span_digits (l : list ascii) : list ascii * list ascii :=
  match l with
  | [] => ([], [])
  | c :: l' =>
      if is_digit c
      then let '(ds, r) := span_digits l' in (c :: ds, r)
      else ([], l)
  end.

Definition digit_value (c : ascii) : N := N.of_nat (nat_of_ascii c - 48).

Definition digits_value (ds : list ascii) : N :=
  fold_left (fun acc c => (acc * 10 + digit_value c)%N) ds 0%N.

Definition take_sign (l : list ascii) : bool * list ascii :=
  match l with
  | "-"%char :: r => (true, r)
  | "+"%char :: r => (false, r)
  | _ => (false, l)
  end.

(** [e] or [E], an optional sign and at least one digit, up to the end. *)
Definition parse_exponent (l : list ascii) : option Z :=
  match l with
  | [] => Some 0
  | c :: r =>
      if Ascii.eqb (Text.lower_char c) "e"%char
      then
        let '(neg, r1) := take_sign r in
        match span_digits r1 with
        | ((_ :: _) as ds, []) =>
            let x := Z.of_N (digits_value ds) in
            Some (if neg then - x else x)
        | _ => None
        end
      else None
  end.

(** The unsigned part: [inf], [infinity], [nan] in any case, or digits
    with an optional fraction and exponent (a digit is required). *)
Definition parse_abs (neg : bool) (l : list ascii) : option float :=
  let low := string_of_list_ascii (map Text.lower_char l) in
  if (String.eqb low "inf" || String.eqb low "infinity")%bool
  then Some (S754_infinity neg)
  else if String.eqb low "nan" then Some S754_nan
  else
    let '(ip, r1) := span_digits l in
    let '(fp, r2) :=
      match r1 with
      | "."%char :: r => span_digits r
      | _ => ([], r1)
      end in
    match ip ++ fp with
    | [] => None
    | ds =>
        match parse_exponent r2 with
        | Some x =>
            Some (of_decimal neg (digits_value ds)
                    (x - Z.of_nat (List.length fp)))
        | None => None
        end
    end.

(** [float(s)]: surrounding white space is ignored; anything that is not
    a number raises ValueError; a number too large becomes an infinity. *)
Definition of_str (s : string) : result float :=
  let body := Text.strip_by is_c_space (list_ascii_of_string s) in
  match drop_underscores Ascii.zero body with
  | None => Raise ValueError
  | Some l =>
      let '(neg, r) := take_sign l in
      match parse_abs neg r with
      | Some f => Ok f
      | None => Raise ValueError
      end
  end.

(** *** Formatting: [f"{x:.2f}"] *)

(** [n / d] rounded to the nearest integer, ties to even ([0 <= n], [0 < d]). *)
Definition div_half_even (n d : Z) : Z :=
  let q := n / d in
  match (2 * (n mod d) ?= d) with
  | Lt => q
  | Gt => q + 1
  | Eq => if Z.even q then q else q + 1
  end.

(** [m * 2^e] in hundredths, rounded half to even. *)
Definition hundredths (m : positive) (e : Z) : Z :=
  if 0 <=? e then Zpos m * 2 ^ e * 100
  else div_half_even (Zpos m * 100) (2 ^ (- e)).

Definition sign_str (neg : bool) : string := if neg then "-" else "".

Definition two_digits (n : Z) : string :=
  Text.of_N (Z.to_N (n / 10)) +++ Text.of_N (Z.to_N (n mod 10)).

Definition fixed2 (neg : bool) (c : Z) : string :=
  sign_str neg +++ Text.of_N (Z.to_N (c / 100)) +++ "." +++ two_digits (c mod 100).

Definition format_2f (f : float) : string :=
  match f with
  | S754_nan => "nan"
  | S754_infinity s => sign_str s +++ "inf"
  | S754_zero s => fixed2 s 0
  | S754_finite s m e => fixed2 s (hundredths m e)
  end.

End Float.

(** ** Values loaded from the data file *)

Inductive pyval : Type :=
| PNone
| PBool (b : bool)
| PInt (z : Z)
| PFloat (f : float)
| PStr (s : string)
| PList (l : list pyval)
| PDict (d : list (string * pyval)).

Definition dict : Type := list (string * pyval).

(** [d.get(key)], [None] when the key is absent *)
Fixpoint dict_get (d : dict) (key : string) : option pyval :=
  match d with
  | [] => None
  | (k, v) :: d' => if String.eqb k key then Some v else dict_get d' key
  end.

(** [x.get(key, default)] *)
Definition get_or {A : Type} (field : option A) (default : A) : A :=
  match field with
  | Some a => a
  | None => default
  end.

(** [bool(v)] *)
Definition truthy (v : pyval) : bool :=
  match v with
  | PNone => false
  | PBool b => b
  | PInt z => negb (z =? 0)
  | PFloat f => negb (Float.eqb f Float.zero)
  | PStr s => negb (String.eqb s "")
  | PList l => match l with [] => false | _ => true end
  | PDict d => match d with [] => false | _ => true end
  end.

(** [isinstance(v, (int, float, str))]; a [bool] is an [int]. *)
Definition is_int_float_str (v : pyval) : bool :=
  match v with
  | PBool _ | PInt _ | PFloat _ | PStr _ => true
  | _ => false
  end.

(** [float(v)] *)
Definition py_float (v : pyval) : result float :=
  match v with
  | PBool b => Ok (Float.of_Z (if b then 1 else 0))
  | PInt z => Float.of_int z
  | PFloat f => Ok f
  | PStr s => Float.of_str s
  | PNone | PList _ | PDict _ => Raise TypeError
  end.

Record Model : Type := {
  model_id_key : option string;
  model_name_key : option string;
  model_prices_key : option pyval
}.

Record Provider : Type := {
  provider_id_key : option string;
  provider_name_key : option string;
  provider_models_key : option (list Model)
}.

Definition dataset : Type := list Provider.

(** [provider.get("models", [])] *)
Definition models_of (provider : Provider) : list Model :=
  get_or (provider_models_key provider) [].

(** A row of the table: the dict built at lines 133-141, with the
    ["Provider"] key that the sorted mode adds later. *)
Record Row : Type := {
  row_Name : string;
  row_Input : string;
  row_Write : string;
  row_Read : string;
  row_Out : string;
  row_Model : string;
  row_PriceSum : float;
  row_Provider : option string
}.

(** ** [matches_filter] and [format_price] *)

Definition matches_filter (text filter_str : string) : bool :=
  Text.contains (Text.lower filter_str) (Text.lower text).

Definition format_price (price_value : pyval) : result string :=
  match price_value with
  | PNone => Ok ""
  | _ =>
      match py_float price_value with
      | Ok f => Ok ("$" +++ Float.format_2f f)
      | Raise e => if catches e then Ok "" else Raise e
      end
  end.

(** ** Building one row (lines 102-141) *)

(** The [prices] mapping of a model: its ["prices"] value when that is a
    dict, the empty dict when it is absent, a list or anything else. *)
Definition prices_of (model : Model) : dict :=
  match get_or (model_prices_key model) (PDict []) with
  | PDict d => d
  | _ => []
  end.

(** [float(raw) if raw and isinstance(raw, (int, float, str)) else 0.0] *)
Definition price_val (raw : pyval) : result float :=
  if truthy raw && is_int_float_str raw then py_float raw else Ok Float.zero.

(** The [try] block of lines 120-128: [(input_val, output_val)]. An
    exception caught while converting the input leaves both at [0.0]. *)
Definition price_vals (prices : dict) : result (float * float) :=
  let input_raw := get_or (dict_get prices "input_mtok") (PInt 0) in
  let output_raw := get_or (dict_get prices "output_mtok") (PInt 0) in
  match price_val input_raw with
  | Raise e => if catches e then Ok (Float.zero, Float.zero) else Raise e
  | Ok input_val =>
      match price_val output_raw with
      | Raise e => if catches e then Ok (input_val, Float.zero) else Raise e
      | Ok output_val => Ok (input_val, output_val)
      end
  end.

Definition price_sum (prices : dict) : result float :=
  vals <- price_vals prices ;;
  Ok (Float.add (fst vals) (snd vals)).

Definition make_row (model : Model) : result Row :=
  let model_id := get_or (model_id_key model) "" in
  let model_name := get_or (model_name_key model) "" in
  let prices := prices_of model in
  input_price <- format_price (get_or (dict_get prices "input_mtok") PNone) ;;
  write_price <- format_price (get_or (dict_get prices "cache_write_mtok") PNone) ;;
  read_price <- format_price (get_or (dict_get prices "cache_read_mtok") PNone) ;;
  out_price <- format_price (get_or (dict_get prices "output_mtok") PNone) ;;
  sum <- price_sum prices ;;
  let display_name := if String.eqb model_name "" then model_id else model_name in
  Ok {| row_Name := display_name;
        row_Input := input_price;
        row_Write := write_price;
        row_Read := read_price;
        row_Out := out_price;
        row_Model := model_id;
        row_PriceSum := sum;
        row_Provider := None |}.

(** ** [print_table] *)

Definition print (s : string) : string := s +++ Text.nl.

Definition columns (has_provider : bool) : list string :=
  if has_provider
  then ["Provider"; "Name"; "Input"; "Write"; "Read"; "Out"; "Model"]
  else ["Name"; "Input"; "Write"; "Read"; "Out"; "Model"].

(** [str(row.get(col, ""))] for a displayed column *)
Definition row_get (row : Row) (col : string) : string :=
  if String.eqb col "Provider" then get_or (row_Provider row) ""
  else if String.eqb col "Name" then row_Name row
  else if String.eqb col "Input" then row_Input row
  else if String.eqb col "Write" then row_Write row
  else if String.eqb col "Read" then row_Read row
  else if String.eqb col "Out" then row_Out row
  else if String.eqb col "Model" then row_Model row
  else "".

(** ["Provider" in row] *)
Definition has_provider_key (row : Row) : bool :=
  match row_Provider row with
  | Some _ => true
  | None => false
  end.

(** [col in ["Name", "Model", "Provider"]] *)
Definition is_text_col (col : string) : bool :=
  String.eqb col "Name" || String.eqb col "Model" || String.eqb col "Provider".

Definition col_width (rows : list Row) (col : string) : nat :=
  Nat.max (String.length col)
          (max_list (map (fun row => String.length (row_get row col)) rows)).

Definition cell (rows : list Row) (col text : string) : string :=
  if is_text_col col
  then Text.ljust text (col_width rows col)
  else Text.rjust text (col_width rows col).

Definition table_line (rows : list Row) (cols : list string) (row : Row) : string :=
  Text.join " | " (map (fun col => cell rows col (row_get row col)) cols).

(** The lines [print_table(rows)] writes. *)
Definition print_table (rows : list Row) : list string :=
  match rows with
  | [] => []
  | _ =>
      let cols := columns (existsb has_provider_key rows) in
      let header := Text.join " | " (map (fun col => cell rows col col) cols) in
      let separator :=
        Text.join "-+-"
          (map (fun col => Text.repeat_char "-" (col_width rows col)) cols) in
      print header :: print separator :: map (fun row => print (table_line rows cols row)) rows
  end.

(** ** [list_prices] *)

(** The local variables of [list_prices] that the loops update, and what
    has been written to standard output. *)
Record state : Type := {
  matched_any : bool;
  current_provider : option string;
  table_rows : list Row;
  all_rows : list Row;
  stdout : list string
}.

Definition initial : state :=
  {| matched_any := false;
     current_provider := None;
     table_rows := [];
     all_rows := [];
     stdout := [] |}.

Definition rule : string := Text.repeat_char "=" 120.

(** Lines 152-154. *)
Definition provider_banner (provider_name provider_id : string) : list string :=
  [ print (Text.nl +++ rule);
    print ("Provider: " +++ provider_name +++ " (" +++ provider_id +++ ")");
    print rule ].

(** Lines 171-173. *)
Definition sorted_banner : list string :=
  [ print (Text.nl +++ rule);
    print "All Models Sorted by Price (Input + Output)";
    print rule ].

(** [current_provider != provider_name] *)
Definition provider_changed (current : option string) (provider_name : string) : bool :=
  match current with
  | None => true
  | Some c => negb (String.eqb c provider_name)
  end.

(** Lines 102 and 142-155: the row has been built; record it and, when not
    sorting, print the provider header if the provider changed. *)
Definition emit_row (sort_by_price : bool) (provider_name provider_id : string)
    (row : Row) (s : state) : state :=
  let all' := all_rows s ++ [row] in
  if sort_by_price
  then {| matched_any := true;
          current_provider := current_provider s;
          table_rows := table_rows s;
          all_rows := all';
          stdout := stdout s |}
  else if provider_changed (current_provider s) provider_name
  then
    let '(rows, out) :=
      match table_rows s with
      | [] => ([], stdout s)
      | _ => ([], stdout s ++ print_table (table_rows s))
      end in
    {| matched_any := true;
       current_provider := Some provider_name;
       table_rows := rows ++ [row];
       all_rows := all';
       stdout := out ++ provider_banner provider_name provider_id |}
  else {| matched_any := true;
          current_provider := current_provider s;
          table_rows := table_rows s ++ [row];
          all_rows := all';
          stdout := stdout s |}.

(** [matches_filter(model_id, f) or matches_filter(model_name, f)] *)
Definition model_matches (filter_str : string) (model : Model) : bool :=
  matches_filter (get_or (model_id_key model) "") filter_str
  || matches_filter (get_or (model_name_key model) "") filter_str.

(** Lines 70-74. *)
Definition provider_matches (filter_str : string) (provider : Provider) : bool :=
  String.eqb filter_str ""
  || matches_filter (get_or (provider_id_key provider) "") filter_str
  || matches_filter (get_or (provider_name_key provider) "") filter_str.

(** The guard of line 94 with its [continue]: the model is skipped. *)
Definition skips (filter_str : string) (matches : bool) (model : Model) : bool :=
  negb matches && negb (String.eqb filter_str "")
  && negb (model_matches filter_str model).

(** The loop over the models of one provider (lines 89-155). *)
Fixpoint models_loop (filter_str : string) (sort_by_price : bool)
    (provider_name provider_id : string) (matches : bool)
    (models : list Model) (s : state) : result state :=
  match models with
  | [] => Ok s
  | model :: rest =>
      if skips filter_str matches model
      then models_loop filter_str sort_by_price provider_name provider_id matches rest s
      else
        row <- make_row model ;;
        models_loop filter_str sort_by_price provider_name provider_id matches rest
          (emit_row sort_by_price provider_name provider_id row s)
  end.

(** The loop over the providers (lines 65-155). *)
Fixpoint providers_loop (filter_str : string) (sort_by_price : bool)
    (data : dataset) (s : state) : result state :=
  match data with
  | [] => Ok s
  | provider :: rest =>
      let provider_id := get_or (provider_id_key provider) "" in
      let provider_name := get_or (provider_name_key provider) "" in
      let matches := provider_matches filter_str provider in
      if negb matches && negb (existsb (model_matches filter_str) (models_of provider))
      then providers_loop filter_str sort_by_price rest s
      else
        s' <- models_loop filter_str sort_by_price provider_name provider_id
                matches (models_of provider) s ;;
        providers_loop filter_str sort_by_price rest s'
  end.

(** *** Sorting (line 159) *)

(** [list.sort(key=...)] is stable and compares keys with [<] alone. It is
    modelled by stable insertion: a row goes before the first row whose
    key is not smaller than its own. On keys without NaN any stable sort
    leaves the same list ([sort_rows_is_the_stable_order] below). *)
Fixpoint insert_row (row : Row) (sorted : list Row) : list Row :=
  match sorted with
  | [] => [row]
  | x :: rest =>
      if Float.ltb (row_PriceSum x) (row_PriceSum row)
      then x :: insert_row row rest
      else row :: sorted
  end.

Fixpoint sort_rows (rows : list Row) : list Row :=
  match rows with
  | [] => []
  | row :: rest => insert_row row (sort_rows rest)
  end.

(** *** The provider annotation (lines 162-168) *)

(** [model.get("id") == model_id] *)
Definition has_id (model_id : string) (model : Model) : bool :=
  match model_id_key model with
  | Some i => String.eqb i model_id
  | None => false
  end.

(** The inner loop: does it reach the assignment (and the [break])? *)
Fixpoint finds_model (model_id : string) (models : list Model) : bool :=
  match models with
  | [] => false
  | model :: rest => if has_id model_id model then true else finds_model model_id rest
  end.

Definition set_provider (row : Row) (provider_name : string) : Row :=
  {| row_Name := row_Name row;
     row_Input := row_Input row;
     row_Write := row_Write row;
     row_Read := row_Read row;
     row_Out := row_Out row;
     row_Model := row_Model row;
     row_PriceSum := row_PriceSum row;
     row_Provider := Some provider_name |}.

(** The outer loop over the providers, for one row. *)
Fixpoint annotate (data : dataset) (row : Row) : Row :=
  match data with
  | [] => row
  | provider :: rest =>
      if finds_model (row_Model row) (models_of provider)
      then annotate rest (set_provider row (get_or (provider_name_key provider) ""))
      else annotate rest row
  end.

(** *** The whole function *)

(** Lines 56-58. *)
Definition normalize (filter_str : string) : string :=
  if String.eqb (Text.lower filter_str) "all" then "" else filter_str.

Definition no_match_message (filter_str : string) : string :=
  print (Text.nl +++ "No providers or models matching '" +++ filter_str +++ "' found.").

(** Lines 157-178: what is printed after the loops, and the rows shown. *)
Definition finish (data : dataset) (sort_by_price : bool) (s : state) : state :=
  if sort_by_price
  then
    let rows := map (annotate data) (sort_rows (all_rows s)) in
    {| matched_any := matched_any s;
       current_provider := current_provider s;
       table_rows := table_rows s;
       all_rows := rows;
       stdout := stdout s ++ sorted_banner ++ print_table rows |}
  else
    match table_rows s with
    | [] => s
    | _ =>
        {| matched_any := matched_any s;
           current_provider := current_provider s;
           table_rows := table_rows s;
           all_rows := all_rows s;
           stdout := stdout s ++ print_table (table_rows s) |}
    end.

(** The outcome of a run that returns: what was printed, the rows that
    matched (in the order shown when sorting) and the return value. *)
Record outcome : Type := {
  printed : list string;
  rows : list Row;
  exit_code : Z
}.

Definition list_prices (data : dataset) (filter_str : string) (sort_by_price : bool)
  : result outcome :=
  let filter_str := normalize filter_str in
  s <- providers_loop filter_str sort_by_price data initial ;;
  let s := finish data sort_by_price s in
  if negb (String.eqb filter_str "") && negb (matched_any s)
  then Ok {| printed := stdout s ++ [no_match_message filter_str];
             rows := all_rows s;
             exit_code := 1 |}
  else Ok {| printed := stdout s; rows := all_rows s; exit_code := 0 |}.

(** ** [main] *)

(** Lines 233-237: [--sort] sets the flag, any other argument replaces
    the filter. *)
Definition parse_args (args : list string) : string * bool :=
  fold_left
    (fun (acc : string * bool) (arg : string) =>
       if String.eqb arg "--sort" then (fst acc, true) else (arg, snd acc))
    args ("", false).

(** [float(raw) if raw else 0.0] (lines 259-260) *)
Definition summary_val (raw : pyval) : result float :=
  if truthy raw then py_float raw else Ok Float.zero.

(** Lines 258-264 for one model whose prices are the dict [d]: the price
    list after the [try] statement. *)
Definition summary_try (d : dict) (prices : list float) : result (list float) :=
  let input_raw := get_or (dict_get d "input_mtok") (PInt 0) in
  let output_raw := get_or (dict_get d "output_mtok") (PInt 0) in
  let body :=
    input_val <- summary_val input_raw ;;
    output_val <- summary_val output_raw ;;
    Ok (if Float.ltb Float.zero input_val || Float.ltb Float.zero output_val
        then prices ++ [Float.add input_val output_val]
        else prices) in
  match body with
  | Ok prices' => Ok prices'
  | Raise e => if catches e then Ok prices else Raise e
  end.

(** Lines 251-264. *)
Fixpoint summary_prices (models : list Model) (prices : list float)
  : result (list float) :=
  match models with
  | [] => Ok prices
  | model :: rest =>
      match get_or (model_prices_key model) (PDict []) with
      | PDict d =>
          prices' <- summary_try d prices ;;
          summary_prices rest prices'
      | _ => summary_prices rest prices
      end
  end.

(** [min(prices)] and [max(prices)] on a list with a first element. *)
Definition py_min (x : float) (rest : list float) : float :=
  fold_left (fun m y => if Float.ltb y m then y else m) rest x.

Definition py_max (x : float) (rest : list float) : float :=
  fold_left (fun m y => if Float.ltb m y then y else m) rest x.

Record summary_entry : Type := {
  entry_name : string;
  entry_id : string;
  entry_count : nat;
  entry_min : float;
  entry_max : float
}.

(** Lines 244-269. *)
Fixpoint summarize (data : dataset) : result (list summary_entry) :=
  match data with
  | [] => Ok []
  | provider :: rest =>
      let models := models_of provider in
      prices <- summary_prices models [] ;;
      let '(min_price, max_price) :=
        match prices with
        | [] => (Float.zero, Float.zero)
        | x :: r => (py_min x r, py_max x r)
        end in
      entries <- summarize rest ;;
      Ok ({| entry_name := get_or (provider_name_key provider) "";
             entry_id := get_or (provider_id_key provider) "";
             entry_count := List.length models;
             entry_min := min_price;
             entry_max := max_price |} :: entries)
  end.

(** [max(...)] over a generator of lengths: ValueError when it is empty. *)
Definition py_max_len (lens : list nat) : result nat :=
  match lens with
  | [] => Raise ValueError
  | _ => Ok (max_list lens)
  end.

(** [f"${p:.2f}" if p > 0 else "N/A"] *)
Definition price_or_na (p : float) : string :=
  if Float.ltb Float.zero p then "$" +++ Float.format_2f p else "N/A".

Definition prompt : string :=
  "Enter a filter (provider name/id, model name, or 'all'): ".

(** Lines 240-292: the summary table of the interactive mode. *)
Definition print_summary (data : dataset) : result (list string) :=
  providers <- summarize data ;;
  max_name_len <- py_max_len (map (fun p => String.length (entry_name p)) providers) ;;
  max_id_len <- py_max_len (map (fun p => String.length (entry_id p)) providers) ;;
  let total_width := (max_name_len + max_id_len + 50)%nat in
  let bar := print (Text.repeat_char "=" total_width) in
  let header :=
    Text.ljust "Name" max_name_len +++ " | " +++ Text.ljust "ID" max_id_len
    +++ " | " +++ Text.rjust "Models" 7 +++ " | " +++ Text.rjust "Min Price" 10
    +++ " | " +++ Text.rjust "Max Price" 10 in
  let separator :=
    Text.repeat_char "-" max_name_len +++ "-+-" +++ Text.repeat_char "-" max_id_len
    +++ "-+-" +++ Text.repeat_char "-" 7 +++ "-+-" +++ Text.repeat_char "-" 10
    +++ "-+-" +++ Text.repeat_char "-" 10 in
  let line p :=
    Text.ljust (entry_name p) max_name_len +++ " | "
    +++ Text.ljust (entry_id p) max_id_len +++ " | "
    +++ Text.rjust (Text.of_N (N.of_nat (entry_count p))) 7 +++ " | "
    +++ Text.rjust (price_or_na (entry_min p)) 10 +++ " | "
    +++ Text.rjust (price_or_na (entry_max p)) 10 in
  Ok ([bar; print "Available Providers:"; bar; print header; print separator]
      ++ map (fun p => print (line p)) providers ++ [bar]).

(** [main()], given the data file's contents, [sys.argv[1:]] and the line
    that [input] reads ([None] at end of file). Both calls of [load_data]
    read the same file. *)
Definition main (data : dataset) (args : list string) (stdin : option string)
  : result outcome :=
  match args with
  | _ :: _ =>
      let '(filter_str, sort_by_price) := parse_args args in
      list_prices data filter_str sort_by_price
  | [] =>
      summary <- print_summary data ;;
      match stdin with
      | None => Raise EOFError
      | Some line =>
          let filter_str := Text.strip line in
          if String.eqb filter_str ""
          then Ok {| printed := summary ++ [prompt; print "No filter provided. Exiting."];
                     rows := [];
                     exit_code := 0 |}
          else
            o <- list_prices data filter_str false ;;
            Ok {| printed := summary ++ [prompt] ++ printed o;
                  rows := rows o;
                  exit_code := exit_code o |}
      end
  end.

(** * The vocabulary of the properties *)

(** ** Matching *)

(** [f] occurs in [text] when letter case is ignored. *)
Definition ci_substring (f text : string) : Prop :=
  exists pre post, Text.lower text = pre +++ Text.lower f +++ post.

(** ** The rows of a run *)

(** [f] on each element in turn, up to the first exception. *)
Fixpoint mapM {A B : Type} (f : A -> result B) (l : list A) : result (list B) :=
  match l with
  | [] => Ok []
  | a :: l' => b <- f a ;; bs <- mapM f l' ;; Ok (b :: bs)
  end.

(** The models of a provider that get a row: all of them when the
    provider matches, those that match themselves otherwise. *)
Definition shown (f : string) (P : Provider) (M : Model) : bool :=
  provider_matches f P || model_matches f M.

(** The models of [P] that get a row under the filter [f]. *)
Definition selected (f : string) (P : Provider) : list Model :=
  filter (shown f P) (models_of P).

(** The rows of one provider, with the name and id its banner shows. *)
Record segment : Type := {
  seg_name : string;
  seg_id : string;
  seg_rows : list Row
}.

(** The segment of [P]: a row for each selected model. *)
Definition provider_segment (f : string) (P : Provider) : result segment :=
  rs <- mapM make_row (selected f P) ;;
  Ok {| seg_name := get_or (provider_name_key P) "";
        seg_id := get_or (provider_id_key P) "";
        seg_rows := rs |}.

(** The loops' effect on the state, for the rows of one provider. *)
Definition emit_segment (sort_by_price : bool) (s : state) (seg : segment) : state :=
  fold_left (fun s row => emit_row sort_by_price (seg_name seg) (seg_id seg) row s)
            (seg_rows seg) s.

(** The rows in the order the loops meet them. *)
Definition traversal (segs : list segment) : list Row :=
  List.concat (map seg_rows segs).

(** [r] is shown: a table that holds it was printed. *)
Definition shown_in (out : list string) (r : Row) : Prop :=
  exists tbl pre post, In r tbl /\ out = pre ++ print_table tbl ++ post.

(** Every row recorded so far is in the pending table or already shown. *)
Definition rows_accounted (s : state) : Prop :=
  forall r, In r (all_rows s) -> In r (table_rows s) \/ shown_in (stdout s) r.

(** The rows as the run shows them: sorted and annotated when sorting. *)
Definition shown_as (data : dataset) (sort_by_price : bool) (rs : list Row)
  : list Row :=
  if sort_by_price then map (annotate data) (sort_rows rs) else rs.

(** ** The order of prices *)

(** A non-NaN float as a point of a lexicographic order: class, then
    exponent, then mantissa (both negated for negative numbers). *)
Definition float_rank (f : float) : Z * Z * Z :=
  match f with
  | S754_nan => (0, 0, 0)
  | S754_zero _ => (0, 0, 0)
  | S754_infinity true => (-2, 0, 0)
  | S754_infinity false => (2, 0, 0)
  | S754_finite true m e => (-1, - e, - Zpos m)
  | S754_finite false m e => (1, e, Zpos m)
  end.

(** The lexicographic order on triples. *)
Definition lex_lt (a b : Z * Z * Z) : Prop :=
  let '(a1, a2, a3) := a in
  let '(b1, b2, b3) := b in
  a1 < b1 \/ (a1 = b1 /\ (a2 < b2 \/ (a2 = b2 /\ a3 < b3))).

(** The price sum of [a] is at most that of [b]. *)
Definition price_le (a b : Row) : Prop :=
  Float.leb (row_PriceSum a) (row_PriceSum b) = true.

(** The rows whose price compares equal to [k]. *)
Definition same_price (k : float) (r : Row) : bool :=
  Float.eqb k (row_PriceSum r).

(** The price sum of [r] is a number. *)
Definition no_nan_price (r : Row) : Prop :=
  Float.is_nan (row_PriceSum r) = false.

(** A model with the id [model_id] and the input price [input]. *)
Definition priced (model_id : string) (input : pyval) : Model :=
  {| model_id_key := Some model_id;
     model_name_key := None;
     model_prices_key := Some (PDict [("input_mtok", input)]) |}.

(** One provider with three models priced 2, "nan" and 1. *)
Definition nan_data : dataset :=
  [ {| provider_id_key := Some "acme";
       provider_name_key := Some "Acme";
       provider_models_key :=
         Some [priced "two" (PInt 2); priced "nan" (PStr "nan"); priced "one" (PInt 1)] |} ].

(** Two providers that both list a model with the id ["shared"]. *)
Definition shared_id_data : dataset :=
  [ {| provider_id_key := Some "alpha";
       provider_name_key := Some "Alpha";
       provider_models_key :=
         Some [ {| model_id_key := Some "shared";
                   model_name_key := Some "From Alpha";
                   model_prices_key := Some (PDict [("input_mtok", PInt 1)]) |} ] |};
    {| provider_id_key := Some "beta";
       provider_name_key := Some "Beta";
       provider_models_key :=
         Some [ {| model_id_key := Some "shared";
                   model_name_key := Some "From Beta";
                   model_prices_key := Some (PDict [("input_mtok", PInt 2)]) |} ] |} ].

(** ** Exit codes *)

(** The filter that the run works with: the last argument that is not
    [--sort], or the stripped line read in interactive mode, after
    ["all"] has been normalized away. *)
Definition effective_filter (args : list string) (stdin : option string) : string :=
  normalize
    match args with
    | [] => Text.strip (get_or stdin "")
    | _ => fst (parse_args args)
    end.

(** The matching policy: the filter selects a model of a provider. *)
Definition selects (f : string) (P : Provider) (M : Model) : Prop :=
  f = ""
  \/ ci_substring f (get_or (provider_id_key P) "")
  \/ ci_substring f (get_or (provider_name_key P) "")
  \/ ci_substring f (get_or (model_id_key M) "")
  \/ ci_substring f (get_or (model_name_key M) "").

(** The filter selects no model of any provider. *)
Definition nothing_selected (f : string) (data : dataset) : Prop :=
  forall P M, In P data -> In M (models_of P) -> ~ selects f P M.

(** ** The grouped output *)

(** A provider's banner and its table. *)
Definition table_segment (provider_name provider_id : string) (rs : list Row)
  : list string :=
  provider_banner provider_name provider_id ++ print_table rs.

(** The lines of a segment. *)
Definition segment_lines (seg : segment) : list string :=
  table_segment (seg_name seg) (seg_id seg) (seg_rows seg).

(** [bool(l)] for a list. *)
Definition has_rows {A : Type} (l : list A) : bool :=
  match l with
  | [] => false
  | _ => true
  end.

(** The providers that yield at least one row under the filter [f]. *)
Definition row_producers (f : string) (data : dataset) : list Provider :=
  filter (fun P => has_rows (selected f P)) data.

(** Every name differs from the one before it: the test of line 146 holds
    at the first row of each provider. *)
Fixpoint names_change (current : option string) (names : list string) : bool :=
  match names with
  | [] => true
  | n :: rest => provider_changed current n && names_change (Some n) rest
  end.

(** Two providers with the same name, one model each. *)
Definition same_name_data : dataset :=
  [ {| provider_id_key := Some "east";
       provider_name_key := Some "Acme";
       provider_models_key := Some [priced "e1" (PInt 1)] |};
    {| provider_id_key := Some "west";
       provider_name_key := Some "Acme";
       provider_models_key := Some [priced "w1" (PInt 2)] |} ].

(** ** Prices *)

(** Every character is a decimal digit. *)
Fixpoint all_digits (s : string) : bool :=
  match s with
  | EmptyString => true
  | String c s' => Float.is_digit c && all_digits s'
  end.

(** An optional minus sign, at least one digit, a point and two digits. *)
Definition is_two_decimal (s : string) : Prop :=
  exists sign int_part d1 d2,
    s = sign +++ int_part +++ "." +++ String d1 (String d2 "")
    /\ (sign = "" \/ sign = "-")
    /\ int_part <> ""
    /\ all_digits int_part = true
    /\ Float.is_digit d1 = true
    /\ Float.is_digit d2 = true.

(** [0.0 <= f] *)
Definition nonneg (f : float) : Prop := Float.leb Float.zero f = true.

(** The key is missing or holds [None]. *)
Definition absent (prices : dict) (key : string) : Prop :=
  dict_get prices key = None \/ dict_get prices key = Some PNone.

(** The value does not convert to a float: [float] raises TypeError or
    ValueError. *)
Definition invalid (v : pyval) : Prop :=
  exists e, py_float v = Raise e /\ e <> OverflowError.

(** The value, when it is a number (or the text of one), is not below
    zero. *)
Definition nonneg_value (v : pyval) : Prop :=
  match v with
  | PInt z => 0 <= z
  | PFloat f => nonneg f
  | PStr s => forall f, Float.of_str s = Ok f -> nonneg f
  | _ => True
  end.

(** ** Runs that return *)

(** No price of the model is an integer too large for a float. *)
Definition prices_in_range (model : Model) : Prop :=
  forall key v, dict_get (prices_of model) key = Some v ->
                py_float v <> Raise OverflowError.

(** The same for every model of every provider. *)
Definition data_in_range (data : dataset) : Prop :=
  forall P M, In P data -> In M (models_of P) -> prices_in_range M.

(** ** A sample dataset and some runs on it *)

Module Sample.

Definition tiny : Model :=
  {| model_id_key := Some "m1";
     model_name_key := Some "Tiny";
     model_prices_key := Some (PDict [("input_mtok", PInt 1); ("output_mtok", PInt 2)]) |}.

Definition big : Model :=
  {| model_id_key := Some "m2";
     model_name_key := Some "Big";
     model_prices_key :=
       Some (PDict [("input_mtok", PInt 4); ("output_mtok", PStr "1.5");
                    ("cache_read_mtok", PStr "n/a")]) |}.

Definition haiku : Model :=
  {| model_id_key := Some "b1";
     model_name_key := Some "Haiku";
     model_prices_key := Some (PDict [("output_mtok", PInt 1)]) |}.

Definition bare : Model :=
  {| model_id_key := Some "b2";
     model_name_key := None;
     model_prices_key := Some (PList [PInt 1; PInt 2]) |}.

Definition acme : Provider :=
  {| provider_id_key := Some "acme";
     provider_name_key := Some "Acme";
     provider_models_key := Some [tiny; big] |}.

Definition bolt : Provider :=
  {| provider_id_key := Some "bolt";
     provider_name_key := Some "Bolt";
     provider_models_key := Some [haiku; bare] |}.

Definition data : dataset := [acme; bolt].

(** The outcome of a run that returned. *)
Definition returned (r : result outcome) : outcome :=
  match r with
  | Ok o => o
  | Raise _ => {| printed := []; rows := []; exit_code := 0 |}
  end.

Definition acme_sorted : outcome :=
  Eval vm_compute in returned (list_prices data "ACME" true).

Definition hai_grouped : outcome :=
  Eval vm_compute in returned (list_prices data "hai" false).

Definition all_sorted : outcome :=
  Eval vm_compute in returned (list_prices data "all" true).

Definition all_grouped : outcome :=
  Eval vm_compute in returned (list_prices data "" false).

Definition no_match : outcome :=
  Eval vm_compute in returned (main data ["zzz"; "--sort"] None).

End Sample.

(** ** The shape of a table *)

(** The width of every line of the table of [rows]: the columns, the
    separators between them and the newline. *)
Definition table_width (rows : list Row) : nat :=
  let cols := columns (existsb has_provider_key rows) in
  (list_sum (map (col_width rows) cols) + 3 * (List.length cols - 1) + 1)%nat.

(** ** Arguments *)

(** [arg == "--sort"] *)
Definition is_sort_flag (arg : string) : bool := String.eqb arg "--sort".

(** ** The interactive entry *)

(** The line is empty or made of white space only. *)
Definition blank (line : string) : bool :=
  forallb Text.is_space (list_ascii_of_string line).

(** ** Exceptions *)


(** ** The provider annotation *)

Definition name_of (P : Provider) : string := get_or (provider_name_key P) "".

(** The providers that have a model with the id [i]. *)
Definition owns (i : string) (P : Provider) : bool := finds_model i (models_of P).

(** ** Models without prices *)

Definition price_keys : list string :=
  ["input_mtok"; "cache_write_mtok"; "cache_read_mtok"; "output_mtok"].

Definition unpriced (M : Model) : Prop :=
  Forall (fun key => dict_get (prices_of M) key = None) price_keys.

Definition display_name (M : Model) : string :=
  if String.eqb (get_or (model_name_key M) "") ""
  then get_or (model_id_key M) ""
  else get_or (model_name_key M) "".

(** ** The summary of the interactive mode *)

(** A price the two modes read alike: a falsy value, or a number, a bool
    or a text that [float] converts. *)
Definition convertible (raw : pyval) : Prop :=
  truthy raw = false
  \/ (is_int_float_str raw = true /\ exists f, py_float raw = Ok f).

Definition convertible_prices (M : Model) : Prop :=
  convertible (get_or (dict_get (prices_of M) "input_mtok") (PInt 0))
  /\ convertible (get_or (dict_get (prices_of M) "output_mtok") (PInt 0)).

(** [input_val > 0 or output_val > 0], on the values of the listing. *)
Definition paid (M : Model) : bool :=
  match price_vals (prices_of M) with
  | Ok (input_val, output_val) =>
      Float.ltb Float.zero input_val || Float.ltb Float.zero output_val
  | Raise _ => false
  end.

Definition not_nan (f : float) : Prop := Float.is_nan f = false.

(** What an entry of the summary says about its provider. *)
Definition summarizes (P : Provider) (entry : summary_entry) : Prop :=
  entry_name entry = name_of P
  /\ entry_id entry = get_or (provider_id_key P) ""
  /\ entry_count entry = List.length (models_of P)
  /\ exists prices,
       summary_prices (models_of P) [] = Ok prices
       /\ match prices with
          | [] => entry_min entry = Float.zero /\ entry_max entry = Float.zero
          | _ =>
              In (entry_min entry) prices /\ In (entry_max entry) prices
              /\ (Forall not_nan prices ->
                  Forall (fun p => Float.leb (entry_min entry) p = true
                                   /\ Float.leb p (entry_max entry) = true) prices)
          end.

Definition id_of (P : Provider) : string := get_or (provider_id_key P) "".

(** The widths of the name and id columns of the summary. *)
Definition name_width (data : dataset) : nat :=
  max_list (map (fun P => String.length (name_of P)) data).

Definition id_width (data : dataset) : nat :=
  max_list (map (fun P => String.length (id_of P)) data).

(** ** More sample runs *)

Module Cases.




Definition ha_grouped : outcome :=
  Eval vm_compute in Sample.returned (list_prices Sample.data "ha" false).

Definition summary : list string :=
  Eval vm_compute in
    match print_summary Sample.data with
    | Ok lines => lines
    | Raise _ => []
    end.

Definition entries : list summary_entry :=
  Eval vm_compute in
    match summarize Sample.data with
    | Ok es => es
    | Raise _ => []
    end.

(** The row of [Sample.tiny] in a sorted run. *)
Definition tiny_row : Row :=
  Eval vm_compute in
    match make_row Sample.tiny with
    | Ok r => annotate Sample.data r
    | Raise _ => set_provider (annotate Sample.data
                                 {| row_Name := ""; row_Input := ""; row_Write := "";
                                    row_Read := ""; row_Out := ""; row_Model := "";
                                    row_PriceSum := Float.zero; row_Provider := None |}) ""
    end.

End Cases.

(** * Properties *)

(** ** Text: what [in] decides *)

Lemma append_assoc (a b c : string) : (a +++ b) +++ c = a +++ b +++ c.
Proof. induction a as [|x a IH]; simpl; [reflexivity | now rewrite IH]. Qed.

Lemma startswith_iff (p s : string) :
  Text.startswith p s = true <-> exists t, s = p +++ t.
Proof.
  revert s; induction p as [|a p IH]; intros s; simpl.
  - split; [intros _; now exists s | reflexivity].
  - destruct s as [|b s]; simpl.
    + split; [discriminate | intros [t Ht]; discriminate].
    + rewrite andb_true_iff, Ascii.eqb_eq, IH. split.
      * intros [-> [t ->]]. now exists t.
      * intros [t Ht]. injection Ht as -> ->. split; [reflexivity | now exists t].
Qed.

Lemma contains_iff (sub s : string) :
  Text.contains sub s = true <-> exists pre post, s = pre +++ sub +++ post.
Proof.
  induction s as [|c s IH]; simpl; rewrite orb_true_iff, startswith_iff.
  - split.
    + intros [[t Ht] | H]; [now exists "", t | discriminate].
    + intros [pre [post H]]. left. destruct pre; simpl in H; [now exists post | discriminate].
  - rewrite IH. split.
    + intros [[t Ht] | [pre [post H]]].
      * now exists "", t.
      * exists (String c pre), post. simpl. now rewrite H.
    + intros [pre [post H]]. destruct pre as [|x pre]; simpl in H.
      * left. now exists post.
      * right. injection H as _ H. now exists pre, post.
Qed.

Lemma matches_filter_iff (text f : string) :
  matches_filter text f = true <-> ci_substring f text.
Proof. unfold matches_filter, ci_substring. apply contains_iff. Qed.

Lemma model_matches_iff (f : string) (M : Model) :
  model_matches f M = true <->
  ci_substring f (get_or (model_id_key M) "")
  \/ ci_substring f (get_or (model_name_key M) "").
Proof.
  unfold model_matches. now rewrite orb_true_iff, !matches_filter_iff.
Qed.

Lemma provider_matches_iff (f : string) (P : Provider) :
  provider_matches f P = true <->
  f = ""
  \/ ci_substring f (get_or (provider_id_key P) "")
  \/ ci_substring f (get_or (provider_name_key P) "").
Proof.
  unfold provider_matches.
  rewrite !orb_true_iff, String.eqb_eq, !matches_filter_iff. tauto.
Qed.

(** ** The loops as a traversal *)

Lemma mapM_Forall2 {A B : Type} (f : A -> result B) (l : list A) (bs : list B) :
  mapM f l = Ok bs <-> Forall2 (fun a b => f a = Ok b) l bs.
Proof.
  revert bs; induction l as [|a l IH]; intros bs; simpl.
  - split; [intros [= <-]; constructor | intros H; inversion H; reflexivity].
  - split.
    + destruct (f a) as [b|e] eqn:Ea; simpl; [|discriminate].
      destruct (mapM f l) as [bs'|e] eqn:El; simpl; [|discriminate].
      intros [= <-]. constructor; [assumption | now apply IH].
    + intros H; inversion H as [|? b ? bs' Ha Hl]; subst.
      rewrite Ha; simpl. apply IH in Hl. now rewrite Hl.
Qed.

Lemma mapM_app {A B : Type} (f : A -> result B) (l1 l2 : list A) (bs : list B) :
  mapM f (l1 ++ l2) = Ok bs <->
  exists bs1 bs2, mapM f l1 = Ok bs1 /\ mapM f l2 = Ok bs2 /\ bs = bs1 ++ bs2.
Proof.
  rewrite mapM_Forall2. split.
  - intros H. apply Forall2_app_inv_l in H as (bs1 & bs2 & H1 & H2 & ->).
    exists bs1, bs2. now rewrite !mapM_Forall2.
  - intros (bs1 & bs2 & H1 & H2 & ->). rewrite mapM_Forall2 in H1, H2.
    now apply Forall2_app.
Qed.

Lemma skips_shown (f : string) (P : Provider) (M : Model) :
  skips f (provider_matches f P) M = negb (shown f P M).
Proof.
  unfold skips, shown.
  destruct (provider_matches f P) eqn:Ep; simpl; [reflexivity|].
  unfold provider_matches in Ep. destruct (String.eqb f ""); simpl in *; [discriminate|].
  reflexivity.
Qed.

Lemma models_loop_traversal (f : string) (sort_by_price : bool) (name id : string)
    (matches : bool) (models : list Model) (s : state) :
  models_loop f sort_by_price name id matches models s =
  rs <- mapM make_row (filter (fun M => negb (skips f matches M)) models) ;;
  Ok (fold_left (fun s row => emit_row sort_by_price name id row s) rs s).
Proof.
  revert s; induction models as [|M models IH]; intros s; simpl; [reflexivity|].
  destruct (skips f matches M); simpl; [apply IH|].
  destruct (make_row M) as [row|e]; simpl; [|reflexivity].
  rewrite IH. destruct (mapM make_row _); reflexivity.
Qed.

Lemma providers_loop_traversal (f : string) (sort_by_price : bool)
    (data : dataset) (s : state) :
  providers_loop f sort_by_price data s =
  segs <- mapM (provider_segment f) data ;;
  Ok (fold_left (emit_segment sort_by_price) segs s).
Proof.
  revert s; induction data as [|P data IH]; intros s; simpl; [reflexivity|].
  unfold provider_segment at 1, selected.
  destruct (negb (provider_matches f P) && negb (existsb (model_matches f) (models_of P)))
    eqn:Eskip.
  - assert (Hnil : filter (shown f P) (models_of P) = []).
    { apply andb_true_iff in Eskip as [Hp Hm].
      apply negb_true_iff in Hp, Hm.
      induction (models_of P) as [|M l IHl]; simpl in *; [reflexivity|].
      apply orb_false_iff in Hm as [HM Hl].
      unfold shown at 1. rewrite Hp, HM. simpl. now apply IHl. }
    rewrite Hnil; simpl. rewrite IH.
    destruct (mapM (provider_segment f) data); reflexivity.
  - rewrite models_loop_traversal.
    rewrite (filter_ext _ (shown f P)).
    2: { intros M. rewrite skips_shown. apply negb_involutive. }
    destruct (mapM make_row (filter (shown f P) (models_of P))) as [rs|e]; simpl;
      [|reflexivity].
    rewrite IH. destruct (mapM (provider_segment f) data); reflexivity.
Qed.

(** ** What the loops leave in the state *)

Lemma emit_row_all_rows (sort_by_price : bool) (name id : string) (row : Row) (s : state) :
  all_rows (emit_row sort_by_price name id row s) = all_rows s ++ [row].
Proof.
  unfold emit_row. destruct sort_by_price; [reflexivity|].
  destruct (provider_changed _ _); [|reflexivity].
  destruct (table_rows s); reflexivity.
Qed.

Lemma emit_row_matched_any (sort_by_price : bool) (name id : string) (row : Row) (s : state) :
  matched_any (emit_row sort_by_price name id row s) = true.
Proof.
  unfold emit_row. destruct sort_by_price; [reflexivity|].
  destruct (provider_changed _ _); [|reflexivity].
  destruct (table_rows s); reflexivity.
Qed.

Lemma emit_rows_all_rows (sort_by_price : bool) (name id : string) (rs : list Row) (s : state) :
  all_rows (fold_left (fun s row => emit_row sort_by_price name id row s) rs s)
  = all_rows s ++ rs.
Proof.
  revert s; induction rs as [|r rs IH]; intros s; simpl.
  - now rewrite app_nil_r.
  - rewrite IH, emit_row_all_rows, <- app_assoc. reflexivity.
Qed.

Lemma emit_rows_matched_any (sort_by_price : bool) (name id : string) (rs : list Row) (s : state) :
  matched_any (fold_left (fun s row => emit_row sort_by_price name id row s) rs s)
  = match rs with [] => matched_any s | _ => true end.
Proof.
  revert s; induction rs as [|r rs IH]; intros s; simpl; [reflexivity|].
  rewrite IH. destruct rs; [apply emit_row_matched_any | reflexivity].
Qed.

Lemma loop_all_rows (sort_by_price : bool) (segs : list segment) (s : state) :
  all_rows (fold_left (emit_segment sort_by_price) segs s) = all_rows s ++ traversal segs.
Proof.
  revert s; induction segs as [|seg segs IH]; intros s; simpl.
  - now rewrite app_nil_r.
  - rewrite IH. unfold emit_segment. rewrite emit_rows_all_rows.
    unfold traversal; simpl. now rewrite app_assoc.
Qed.

Lemma loop_matched_any (sort_by_price : bool) (segs : list segment) (s : state) :
  matched_any (fold_left (emit_segment sort_by_price) segs s)
  = match traversal segs with [] => matched_any s | _ => true end.
Proof.
  revert s; induction segs as [|seg segs IH]; intros s; simpl; [reflexivity|].
  rewrite IH. unfold emit_segment. rewrite emit_rows_matched_any.
  unfold traversal; simpl.
  destruct (seg_rows seg); simpl; [reflexivity|].
  destruct (List.concat (map seg_rows segs)); reflexivity.
Qed.

(** When sorting, the loops print nothing and keep no table. *)
Lemma emit_rows_sorted_quiet (name id : string) (rs : list Row) (s : state) :
  stdout (fold_left (fun s row => emit_row true name id row s) rs s) = stdout s
  /\ table_rows (fold_left (fun s row => emit_row true name id row s) rs s) = table_rows s.
Proof.
  revert s; induction rs as [|r rs IHr]; intros s; [split; reflexivity|].
  change (fold_left (fun s row => emit_row true name id row s) (r :: rs) s)
    with (fold_left (fun s row => emit_row true name id row s) rs (emit_row true name id r s)).
  destruct (IHr (emit_row true name id r s)) as [E1 E2]. rewrite E1, E2.
  split; reflexivity.
Qed.

Lemma loop_sorted_quiet (segs : list segment) (s : state) :
  stdout (fold_left (emit_segment true) segs s) = stdout s
  /\ table_rows (fold_left (emit_segment true) segs s) = table_rows s.
Proof.
  revert s; induction segs as [|seg segs IH]; intros s; [split; reflexivity|].
  change (fold_left (emit_segment true) (seg :: segs) s)
    with (fold_left (emit_segment true) segs (emit_segment true s seg)).
  destruct (IH (emit_segment true s seg)) as [E1 E2]. rewrite E1, E2.
  apply emit_rows_sorted_quiet.
Qed.

(** *** Rows reach the output *)

Lemma print_table_has_line (tbl : list Row) (r : Row) :
  In r tbl ->
  In (print (table_line tbl (columns (existsb has_provider_key tbl)) r)) (print_table tbl).
Proof.
  intros Hin. unfold print_table. destruct tbl as [|x tbl]; [contradiction|].
  right; right. apply in_map_iff. now exists r.
Qed.

Lemma shown_in_grows (out more : list string) (r : Row) :
  shown_in out r -> shown_in (out ++ more) r.
Proof.
  intros (tbl & pre & post & Hin & ->). exists tbl, pre, (post ++ more).
  split; [assumption|]. now rewrite <- !app_assoc.
Qed.

Lemma emit_row_accounted (name id : string) (row : Row) (s : state) :
  rows_accounted s -> rows_accounted (emit_row false name id row s).
Proof.
  unfold rows_accounted. intros Hs r. unfold emit_row.
  destruct (provider_changed (current_provider s) name).
  - destruct (table_rows s) as [|t ts] eqn:Et; simpl; intros Hin;
      apply in_app_or in Hin as [Hin | [<- | []]]; try (left; now left);
      right; destruct (Hs r Hin) as [Hin' | Hsh].
    + contradiction.
    + now apply shown_in_grows.
    + exists (t :: ts), (stdout s), (provider_banner name id). split; [assumption|].
      now rewrite <- app_assoc.
    + rewrite <- app_assoc. now apply shown_in_grows.
  - simpl. intros Hin. apply in_app_or in Hin as [Hin | [<- | []]].
    + destruct (Hs r Hin) as [Hin' | Hsh]; [left; apply in_or_app; now left | now right].
    + left. apply in_or_app. right. now left.
Qed.

Lemma loop_accounted (segs : list segment) (s : state) :
  rows_accounted s -> rows_accounted (fold_left (emit_segment false) segs s).
Proof.
  revert s; induction segs as [|seg segs IH]; intros s Hs; simpl; [assumption|].
  apply IH. unfold emit_segment. generalize (seg_rows seg) as rs. intros rs; revert s Hs.
  induction rs as [|r rs IHr]; intros s Hs; simpl; [assumption|].
  apply IHr. now apply emit_row_accounted.
Qed.

Lemma finish_unsorted_shown (data : dataset) (s : state) :
  rows_accounted s ->
  forall r, In r (all_rows (finish data false s)) -> shown_in (stdout (finish data false s)) r.
Proof.
  intros Hs r. unfold finish. destruct (table_rows s) as [|t ts] eqn:Et; simpl; intros Hin.
  - destruct (Hs r Hin) as [Hin' | Hsh]; [rewrite Et in Hin'; contradiction | assumption].
  - destruct (Hs r Hin) as [Hin' | Hsh].
    + exists (t :: ts), (stdout s), []. rewrite Et in Hin'. split; [assumption|].
      now rewrite app_nil_r.
    + now apply shown_in_grows.
Qed.

Lemma finish_sorted_shown (data : dataset) (s : state) :
  forall r, In r (all_rows (finish data true s)) -> shown_in (stdout (finish data true s)) r.
Proof.
  intros r Hin. unfold finish in *; simpl in *.
  exists (map (annotate data) (sort_rows (all_rows s))), (stdout s ++ sorted_banner), [].
  split; [assumption|]. now rewrite app_nil_r, <- app_assoc.
Qed.

(** *** [list_prices] in terms of the traversal *)

Lemma list_prices_traversal (data : dataset) (filter_str : string)
    (sort_by_price : bool) (o : outcome) :
  list_prices data filter_str sort_by_price = Ok o ->
  exists segs,
    mapM (provider_segment (normalize filter_str)) data = Ok segs
    /\ rows o = shown_as data sort_by_price (traversal segs)
    /\ exit_code o =
       (if negb (String.eqb (normalize filter_str) "")
           && match traversal segs with [] => true | _ => false end
        then 1 else 0)
    /\ (forall r, In r (rows o) -> shown_in (printed o) r).
Proof.
  unfold list_prices. rewrite providers_loop_traversal.
  destruct (mapM (provider_segment (normalize filter_str)) data) as [segs|e]; simpl;
    [|discriminate].
  intros H. exists segs. split; [reflexivity|].
  set (s := fold_left (emit_segment sort_by_price) segs initial) in *.
  assert (Hall : all_rows s = traversal segs) by (subst s; now rewrite loop_all_rows).
  assert (Hany : matched_any (finish data sort_by_price s)
                 = match traversal segs with [] => false | _ => true end).
  { transitivity (matched_any s).
    - unfold finish. destruct sort_by_price; [reflexivity|]. now destruct (table_rows s).
    - subst s. now rewrite loop_matched_any. }
  assert (Hrows : all_rows (finish data sort_by_price s)
                  = shown_as data sort_by_price (traversal segs)).
  { unfold finish, shown_as. destruct sort_by_price; simpl; [now rewrite Hall|].
    now destruct (table_rows s). }
  assert (Hshown : forall r, In r (all_rows (finish data sort_by_price s)) ->
                             shown_in (stdout (finish data sort_by_price s)) r).
  { destruct sort_by_price; [apply finish_sorted_shown|].
    apply finish_unsorted_shown. subst s. apply loop_accounted.
    intros r []. }
  rewrite Hany in H.
  destruct (negb (String.eqb (normalize filter_str) "")); simpl in *;
    destruct (traversal segs); simpl in *; injection H as <-; simpl;
    repeat split; try assumption; try reflexivity.
  all: intros r Hin; try (apply shown_in_grows); now apply Hshown.
Qed.

(** ** The order of floats *)

Module FloatOrder.

Lemma compare_rank (a b : float) :
  Float.is_nan a = false -> Float.is_nan b = false ->
  exists c, SFcompare a b = Some c
    /\ (c = Lt <-> lex_lt (float_rank a) (float_rank b))
    /\ (c = Eq <-> float_rank a = float_rank b)
    /\ (c = Gt <-> lex_lt (float_rank b) (float_rank a)).
Proof.
  intros Ha Hb.
  destruct a as [sa|sa| |sa ma ea], b as [sb|sb| |sb mb eb]; try discriminate;
    try destruct sa; try destruct sb; simpl; eexists; (split; [reflexivity|]);
    try (repeat split; intros H; try discriminate H; try reflexivity;
         try (injection H; intros; lia); try lia; fail).
  - destruct (Z.compare_spec ea eb) as [E|E|E]; simpl.
    + subst eb. change (Pos.compare_cont Eq ma mb) with (Pos.compare ma mb).
      destruct (Pos.compare_spec ma mb) as [F|F|F]; simpl;
        repeat split; intros H; try discriminate H; try reflexivity;
        try (injection H; intros; lia); try lia; try (subst; reflexivity).
    + repeat split; intros H; try discriminate H; try reflexivity;
        try (injection H; intros; lia); try lia.
    + repeat split; intros H; try discriminate H; try reflexivity;
        try (injection H; intros; lia); try lia.
  - destruct (Z.compare_spec ea eb) as [E|E|E]; simpl.
    + subst eb. change (Pos.compare_cont Eq ma mb) with (Pos.compare ma mb).
      destruct (Pos.compare_spec ma mb) as [F|F|F]; simpl;
        repeat split; intros H; try discriminate H; try reflexivity;
        try (injection H; intros; lia); try lia; try (subst; reflexivity).
    + repeat split; intros H; try discriminate H; try reflexivity;
        try (injection H; intros; lia); try lia.
    + repeat split; intros H; try discriminate H; try reflexivity;
        try (injection H; intros; lia); try lia.
Qed.

Lemma ltb_not_nan (a b : float) :
  Float.ltb a b = true -> Float.is_nan a = false /\ Float.is_nan b = false.
Proof. destruct a, b; simpl; try discriminate; intros; split; reflexivity. Qed.

Lemma leb_not_nan (a b : float) :
  Float.leb a b = true -> Float.is_nan a = false /\ Float.is_nan b = false.
Proof. destruct a, b; simpl; try discriminate; intros; split; reflexivity. Qed.

Lemma eqb_not_nan (a b : float) :
  Float.eqb a b = true -> Float.is_nan a = false /\ Float.is_nan b = false.
Proof. destruct a, b; simpl; try discriminate; intros; split; reflexivity. Qed.

Lemma ltb_rank (a b : float) :
  Float.is_nan a = false -> Float.is_nan b = false ->
  (Float.ltb a b = true <-> lex_lt (float_rank a) (float_rank b)).
Proof.
  intros Ha Hb. destruct (compare_rank a b Ha Hb) as (c & Hc & HLt & _ & _).
  unfold Float.ltb, SFltb. rewrite Hc. rewrite <- HLt.
  destruct c; split; intros H; try discriminate; reflexivity.
Qed.

Lemma eqb_rank (a b : float) :
  Float.is_nan a = false -> Float.is_nan b = false ->
  (Float.eqb a b = true <-> float_rank a = float_rank b).
Proof.
  intros Ha Hb. destruct (compare_rank a b Ha Hb) as (c & Hc & _ & HEq & _).
  unfold Float.eqb, SFeqb. rewrite Hc. rewrite <- HEq.
  destruct c; split; intros H; try discriminate; reflexivity.
Qed.

Lemma leb_rank (a b : float) :
  Float.is_nan a = false -> Float.is_nan b = false ->
  (Float.leb a b = true <->
   lex_lt (float_rank a) (float_rank b) \/ float_rank a = float_rank b).
Proof.
  intros Ha Hb. destruct (compare_rank a b Ha Hb) as (c & Hc & HLt & HEq & HGt).
  unfold Float.leb, SFleb. rewrite Hc. rewrite <- HLt, <- HEq.
  destruct c; split; intros H; try discriminate; try reflexivity; try tauto.
  destruct H; discriminate.
Qed.

Lemma lex_trichotomy (a b : Z * Z * Z) : lex_lt a b \/ a = b \/ lex_lt b a.
Proof.
  destruct a as [[a1 a2] a3], b as [[b1 b2] b3]. unfold lex_lt.
  destruct (Z.lt_trichotomy a1 b1) as [H|[H|H]]; [lia| |lia].
  destruct (Z.lt_trichotomy a2 b2) as [H2|[H2|H2]]; [lia| |lia].
  destruct (Z.lt_trichotomy a3 b3) as [H3|[H3|H3]]; [lia| |lia].
  right; left. congruence.
Qed.

Lemma lex_lt_trans (a b c : Z * Z * Z) : lex_lt a b -> lex_lt b c -> lex_lt a c.
Proof.
  destruct a as [[a1 a2] a3], b as [[b1 b2] b3], c as [[c1 c2] c3]. unfold lex_lt. lia.
Qed.

Lemma lex_lt_irrefl (a : Z * Z * Z) : ~ lex_lt a a.
Proof. destruct a as [[a1 a2] a3]. unfold lex_lt. lia. Qed.

(** [not (a < b)] means [b <= a] when neither is NaN. *)
Lemma not_ltb_leb (a b : float) :
  Float.is_nan a = false -> Float.is_nan b = false ->
  Float.ltb a b = false -> Float.leb b a = true.
Proof.
  intros Ha Hb H. apply leb_rank; try assumption.
  destruct (lex_trichotomy (float_rank a) (float_rank b)) as [L|[E|G]];
    [|now right; symmetry|now left].
  apply ltb_rank in L; try assumption. congruence.
Qed.

Lemma ltb_leb (a b : float) : Float.ltb a b = true -> Float.leb a b = true.
Proof.
  unfold Float.ltb, Float.leb, SFltb, SFleb.
  destruct (SFcompare a b) as [[]|]; intros H; try discriminate; reflexivity.
Qed.

Lemma leb_trans (a b c : float) :
  Float.leb a b = true -> Float.leb b c = true -> Float.leb a c = true.
Proof.
  intros Hab Hbc.
  destruct (leb_not_nan _ _ Hab) as [Ha Hb], (leb_not_nan _ _ Hbc) as [_ Hc].
  apply leb_rank in Hab, Hbc; try assumption. apply leb_rank; try assumption.
  destruct Hab as [L1|E1], Hbc as [L2|E2].
  - left. eapply lex_lt_trans; eassumption.
  - left. now rewrite <- E2.
  - left. now rewrite E1.
  - right. congruence.
Qed.

(** A key smaller than [r] is not equal to a key equal to [r]. *)
Lemma ltb_eqb_apart (x r k : float) :
  Float.ltb x r = true -> Float.eqb k r = true -> Float.eqb k x = false.
Proof.
  intros Hlt Heq.
  destruct (ltb_not_nan _ _ Hlt) as [Hx Hr], (eqb_not_nan _ _ Heq) as [Hk _].
  apply ltb_rank in Hlt; try assumption. apply eqb_rank in Heq; try assumption.
  destruct (Float.eqb k x) eqn:E; [|reflexivity].
  apply eqb_rank in E; try assumption.
  rewrite <- E, Heq in Hlt. now apply lex_lt_irrefl in Hlt.
Qed.

(** Keys equal to the same key compare alike with any other. *)
Lemma eqb_ltb_compat (a b x : float) :
  Float.eqb a b = true -> Float.ltb x a = Float.ltb x b.
Proof.
  intros Heq. destruct (eqb_not_nan _ _ Heq) as [Ha Hb].
  apply eqb_rank in Heq; try assumption.
  destruct (Float.is_nan x) eqn:Hx.
  - destruct x; try discriminate. reflexivity.
  - destruct (Float.ltb x a) eqn:E1, (Float.ltb x b) eqn:E2; try reflexivity.
    + apply ltb_rank in E1; try assumption. rewrite Heq in E1.
      apply ltb_rank in E1; try assumption. congruence.
    + apply ltb_rank in E2; try assumption. rewrite <- Heq in E2.
      apply ltb_rank in E2; try assumption. congruence.
Qed.

End FloatOrder.

(** ** Sorting by price *)

Lemma insert_row_perm (r : Row) (l : list Row) : Permutation (insert_row r l) (r :: l).
Proof.
  induction l as [|x l IH]; simpl; [apply Permutation_refl|].
  destruct (Float.ltb (row_PriceSum x) (row_PriceSum r)).
  - eapply perm_trans; [apply perm_skip, IH | apply perm_swap].
  - apply Permutation_refl.
Qed.

Lemma sort_rows_perm (l : list Row) : Permutation (sort_rows l) l.
Proof.
  induction l as [|r l IH]; simpl; [constructor|].
  eapply perm_trans; [apply insert_row_perm | now apply perm_skip].
Qed.

Lemma insert_row_sorted (r : Row) (l : list Row) :
  no_nan_price r -> Forall no_nan_price l ->
  StronglySorted price_le l -> StronglySorted price_le (insert_row r l).
Proof.
  intros Hr Hl Hs. induction Hs as [|x l Hs IH Hx]; simpl.
  - constructor; constructor.
  - inversion Hl as [|? ? Hnx Hl']; subst.
    destruct (Float.ltb (row_PriceSum x) (row_PriceSum r)) eqn:E.
    + constructor; [now apply IH|].
      eapply Permutation_Forall; [apply Permutation_sym, insert_row_perm|].
      constructor; [now apply FloatOrder.ltb_leb | assumption].
    + assert (Hrx : price_le r x) by now apply FloatOrder.not_ltb_leb.
      constructor; [now constructor|].
      constructor; [assumption|].
      eapply Forall_impl; [|exact Hx].
      intros y Hy. eapply FloatOrder.leb_trans; eassumption.
Qed.

Lemma sort_rows_sorted (l : list Row) :
  Forall no_nan_price l -> StronglySorted price_le (sort_rows l).
Proof.
  induction l as [|r l IH]; simpl; intros Hl; [constructor|].
  inversion Hl; subst. apply insert_row_sorted; try assumption.
  - eapply Permutation_Forall; [apply Permutation_sym, sort_rows_perm | assumption].
  - now apply IH.
Qed.

Lemma insert_row_stable (k : float) (r : Row) (l : list Row) :
  filter (same_price k) (insert_row r l) = filter (same_price k) (r :: l).
Proof.
  induction l as [|x l IH]; [reflexivity|].
  simpl insert_row.
  destruct (Float.ltb (row_PriceSum x) (row_PriceSum r)) eqn:E; [|reflexivity].
  change (filter (same_price k) (x :: insert_row r l))
    with (if same_price k x then x :: filter (same_price k) (insert_row r l)
          else filter (same_price k) (insert_row r l)).
  rewrite IH. simpl.
  destruct (same_price k r) eqn:Er; [|reflexivity].
  unfold same_price in Er.
  assert (Ex : same_price k x = false) by exact (FloatOrder.ltb_eqb_apart _ _ _ E Er).
  now rewrite Ex.
Qed.

Lemma sort_rows_stable (k : float) (l : list Row) :
  filter (same_price k) (sort_rows l) = filter (same_price k) l.
Proof.
  induction l as [|r l IH]; [reflexivity|].
  simpl sort_rows. rewrite insert_row_stable. simpl. now rewrite IH.
Qed.

(** *** Any stable sort would do *)

Lemma eqb_refl_price (r : Row) : no_nan_price r -> same_price (row_PriceSum r) r = true.
Proof. intros H. unfold same_price. now apply FloatOrder.eqb_rank. Qed.

Lemma price_le_antisym (a b : Row) :
  price_le a b -> price_le b a -> same_price (row_PriceSum a) b = true.
Proof.
  unfold price_le, same_price. intros Hab Hba.
  destruct (FloatOrder.leb_not_nan _ _ Hab) as [Ha Hb].
  apply FloatOrder.leb_rank in Hab, Hba; try assumption.
  apply FloatOrder.eqb_rank; try assumption.
  destruct Hab as [L1 | E]; [|assumption].
  destruct Hba as [L2 | E]; [|now symmetry].
  exfalso. exact (FloatOrder.lex_lt_irrefl _ (FloatOrder.lex_lt_trans _ _ _ L1 L2)).
Qed.

Lemma price_le_refl (a : Row) : no_nan_price a -> price_le a a.
Proof.
  intros H. unfold price_le. apply FloatOrder.leb_rank; try assumption. now right.
Qed.

(** Two orderings of the same rows that are both non-decreasing and keep
    rows of equal price in the same relative order are the same list. *)
Lemma stable_order_unique (l1 l2 : list Row) :
  Forall no_nan_price l1 ->
  StronglySorted price_le l1 -> StronglySorted price_le l2 ->
  Permutation l1 l2 ->
  (forall k, filter (same_price k) l1 = filter (same_price k) l2) ->
  l1 = l2.
Proof.
  revert l2; induction l1 as [|a t1 IH]; intros l2 Hnan Hs1 Hs2 Hperm Hfilter.
  - now apply Permutation_nil in Hperm.
  - destruct l2 as [|b t2]; [apply Permutation_sym, Permutation_nil in Hperm; discriminate|].
    inversion Hnan as [|? ? Hna Hnt]; subst.
    inversion Hs1 as [|? ? Hs1' Ha]; subst. inversion Hs2 as [|? ? Hs2' Hb]; subst.
    assert (Hnb : no_nan_price b).
    { rewrite Forall_forall in Hnan. apply Hnan.
      eapply Permutation_in; [apply Permutation_sym, Hperm | now left]. }
    assert (Hba : price_le b a).
    { assert (Hin : In a (b :: t2)) by (eapply Permutation_in; [exact Hperm | now left]).
      destruct Hin as [<- | Hin]; [now apply price_le_refl|].
      rewrite Forall_forall in Hb. now apply Hb. }
    assert (Hab : price_le a b).
    { assert (Hin : In b (a :: t1))
        by (eapply Permutation_in; [apply Permutation_sym, Hperm | now left]).
      destruct Hin as [<- | Hin]; [now apply price_le_refl|].
      rewrite Forall_forall in Ha. now apply Ha. }
    pose proof (Hfilter (row_PriceSum a)) as Hk. simpl in Hk.
    rewrite (eqb_refl_price a Hna), (price_le_antisym a b Hab Hba) in Hk.
    injection Hk as <- _.
    f_equal. apply IH; try assumption.
    + now apply Permutation_cons_inv in Hperm.
    + intros k. specialize (Hfilter k). simpl in Hfilter.
      destruct (same_price k a); [now injection Hfilter | assumption].
Qed.

(** So on prices without NaN the rows that [list.sort] leaves are those of
    [sort_rows], whichever stable algorithm it runs. *)
Lemma sort_rows_is_the_stable_order (l l' : list Row) :
  Forall no_nan_price l ->
  StronglySorted price_le l' ->
  Permutation l' l ->
  (forall k, filter (same_price k) l' = filter (same_price k) l) ->
  l' = sort_rows l.
Proof.
  intros Hnan Hs Hperm Hfilter. apply stable_order_unique.
  - eapply Permutation_Forall; [apply Permutation_sym, Hperm | assumption].
  - assumption.
  - now apply sort_rows_sorted.
  - eapply perm_trans; [exact Hperm | apply Permutation_sym, sort_rows_perm].
  - intros k. now rewrite Hfilter, sort_rows_stable.
Qed.

(** The annotation leaves everything but the ["Provider"] key alone. *)
Lemma annotate_price (data : dataset) (row : Row) :
  row_PriceSum (annotate data row) = row_PriceSum row.
Proof.
  revert row; induction data as [|P data IH]; intros row; simpl; [reflexivity|].
  destruct (finds_model _ _); rewrite IH; reflexivity.
Qed.

Lemma annotate_model (data : dataset) (row : Row) :
  row_Model (annotate data row) = row_Model row.
Proof.
  revert row; induction data as [|P data IH]; intros row; simpl; [reflexivity|].
  destruct (finds_model _ _); rewrite IH; reflexivity.
Qed.

Lemma filter_same_price_annotate (data : dataset) (k : float) (l : list Row) :
  filter (same_price k) (map (annotate data) l)
  = map (annotate data) (filter (same_price k) l).
Proof.
  induction l as [|r l IH]; [reflexivity|].
  change (map (annotate data) (r :: l)) with (annotate data r :: map (annotate data) l).
  change (filter (same_price k) (annotate data r :: map (annotate data) l))
    with (if same_price k (annotate data r)
          then annotate data r :: filter (same_price k) (map (annotate data) l)
          else filter (same_price k) (map (annotate data) l)).
  change (filter (same_price k) (r :: l))
    with (if same_price k r then r :: filter (same_price k) l
          else filter (same_price k) l).
  assert (E : same_price k (annotate data r) = same_price k r)
    by (unfold same_price; now rewrite annotate_price).
  rewrite E, IH. now destruct (same_price k r).
Qed.

Lemma sorted_map_annotate (data : dataset) (l : list Row) :
  StronglySorted price_le l -> StronglySorted price_le (map (annotate data) l).
Proof.
  induction 1 as [|x l Hs IH Hx]; simpl; constructor; [assumption|].
  apply Forall_map. eapply Forall_impl; [|exact Hx].
  intros y Hy. unfold price_le. now rewrite !annotate_price.
Qed.

(** ** Filtering *)

Lemma normalize_cases (filter_str : string) :
  (Text.lower filter_str = "all" /\ normalize filter_str = "")
  \/ normalize filter_str = filter_str.
Proof.
  unfold normalize. destruct (String.eqb (Text.lower filter_str) "all") eqn:E.
  - left. apply String.eqb_eq in E. now split.
  - now right.
Qed.

Lemma traversal_app (s1 s2 : list segment) :
  traversal (s1 ++ s2) = traversal s1 ++ traversal s2.
Proof. unfold traversal. now rewrite map_app, concat_app. Qed.

(** The segments of a list of providers are the rows of a run on them. *)
Lemma list_prices_of_segments (data : dataset) (filter_str : string)
    (sort_by_price : bool) (segs : list segment) :
  mapM (provider_segment (normalize filter_str)) data = Ok segs ->
  exists o, list_prices data filter_str sort_by_price = Ok o
            /\ rows o = shown_as data sort_by_price (traversal segs).
Proof.
  intros Hsegs.
  destruct (list_prices data filter_str sort_by_price) as [o|e] eqn:E.
  - exists o. split; [reflexivity|].
    destruct (list_prices_traversal _ _ _ _ E) as (segs' & Hs' & Hrows & _).
    rewrite Hsegs in Hs'. now injection Hs' as <-.
  - exfalso. unfold list_prices in E. rewrite providers_loop_traversal, Hsegs in E.
    simpl in E.
    destruct (negb (String.eqb (normalize filter_str) "") && _); discriminate.
Qed.

Lemma filter_all {A : Type} (p : A -> bool) (l : list A) :
  (forall a, In a l -> p a = true) -> filter p l = l.
Proof.
  induction l as [|a l IH]; simpl; intros H; [reflexivity|].
  rewrite (H a (or_introl eq_refl)). f_equal. apply IH. intros b Hb. apply H. now right.
Qed.

(** A run on [before ++ P :: after] lists the rows of [before], then those
    of the selected models of [P], then the rows of [after]. *)
Lemma list_prices_split (filter_str : string) (sort_by_price : bool) (o : outcome)
    (before after : list Provider) (P : Provider) :
  list_prices (before ++ P :: after) filter_str sort_by_price = Ok o ->
  exists ob oa rows_P,
    list_prices before filter_str false = Ok ob
    /\ list_prices after filter_str false = Ok oa
    /\ Forall2 (fun M r => make_row M = Ok r) (selected (normalize filter_str) P) rows_P
    /\ rows o = shown_as (before ++ P :: after) sort_by_price (rows ob ++ rows_P ++ rows oa).
Proof.
  intros H. destruct (list_prices_traversal _ _ _ _ H) as (segs & Hsegs & Hrows & _).
  apply mapM_app in Hsegs as (sb & spa & Hb & Hpa & ->).
  simpl in Hpa.
  destruct (provider_segment (normalize filter_str) P) as [segP|] eqn:EP; [|discriminate].
  destruct (mapM (provider_segment (normalize filter_str)) after) as [sa|] eqn:Ea;
    [|discriminate].
  simpl in Hpa. injection Hpa as <-.
  destruct (list_prices_of_segments before filter_str false sb Hb) as (ob & Hob & Erb).
  destruct (list_prices_of_segments after filter_str false sa Ea) as (oa & Hoa & Era).
  exists ob, oa, (seg_rows segP). repeat split; try assumption.
  - unfold provider_segment in EP.
    destruct (mapM make_row (selected (normalize filter_str) P)) as [rs|] eqn:Ers;
      [|discriminate].
    simpl in EP. injection EP as <-. simpl. now apply mapM_Forall2.
  - rewrite Hrows, Erb, Era. simpl.
    rewrite traversal_app. unfold traversal at 2. simpl. reflexivity.
Qed.

Lemma In_shown_as (data : dataset) (sort_by_price : bool) (rs : list Row) (r : Row) :
  In r rs -> In (if sort_by_price then annotate data r else r) (shown_as data sort_by_price rs).
Proof.
  intros Hin. unfold shown_as. destruct sort_by_price; [|assumption].
  apply in_map. eapply Permutation_in; [apply Permutation_sym, sort_rows_perm | assumption].
Qed.

(** C1. If the filter is a case-insensitive substring of a provider's id or
    name (or is empty once ["all"] is normalized away), the run shows one
    row for every model of that provider, whatever the models' own ids
    and names: between the rows of the providers before it and those of
    the providers after it stand the rows of all its models, in order
    (sorted and annotated with the rest when sorting), and every row of
    the run is printed in a table. *)
Theorem matching_provider_lists_every_model :
  forall (data : dataset) (filter_str : string) (sort_by_price : bool) (o : outcome)
         (before after : list Provider) (P : Provider),
    list_prices data filter_str sort_by_price = Ok o ->
    data = before ++ P :: after ->
    normalize filter_str = ""
    \/ ci_substring filter_str (get_or (provider_id_key P) "")
    \/ ci_substring filter_str (get_or (provider_name_key P) "") ->
    exists ob oa rows_P,
      list_prices before filter_str false = Ok ob
      /\ list_prices after filter_str false = Ok oa
      /\ Forall2 (fun M r => make_row M = Ok r) (models_of P) rows_P
      /\ rows o = shown_as data sort_by_price (rows ob ++ rows_P ++ rows oa)
      /\ (forall r, In r rows_P ->
            In (if sort_by_price then annotate data r else r) (rows o))
      /\ (forall r, In r (rows o) -> shown_in (printed o) r).
Proof.
  intros data filter_str sort_by_price o before after P Hrun -> Hmatch.
  destruct (list_prices_split _ _ _ _ _ _ Hrun) as (ob & oa & rows_P & Hb & Ha & HP & Hrows).
  destruct (list_prices_traversal _ _ _ _ Hrun) as (_ & _ & _ & _ & Hshown).
  assert (Hpm : provider_matches (normalize filter_str) P = true).
  { apply provider_matches_iff.
    destruct (normalize_cases filter_str) as [[_ E] | E]; rewrite E; [now left|].
    rewrite E in Hmatch. exact Hmatch. }
  exists ob, oa, rows_P. repeat split; try assumption.
  - unfold selected in HP. rewrite filter_all in HP; [assumption|].
    intros M _. unfold shown. now rewrite Hpm.
  - intros r Hin. rewrite Hrows. apply In_shown_as.
    apply in_or_app; right; apply in_or_app; now left.
Qed.

(** C2. If the filter is not empty and the provider does not match it, the
    run shows a row for a model of that provider exactly when the filter is
    a case-insensitive substring of the model's id or of its name: the
    provider's rows are those of its models that pass this test, in
    order. *)
Theorem unmatched_provider_lists_matching_models :
  forall (data : dataset) (filter_str : string) (sort_by_price : bool) (o : outcome)
         (before after : list Provider) (P : Provider),
    list_prices data filter_str sort_by_price = Ok o ->
    data = before ++ P :: after ->
    normalize filter_str <> "" ->
    ~ ci_substring filter_str (get_or (provider_id_key P) "") ->
    ~ ci_substring filter_str (get_or (provider_name_key P) "") ->
    exists ob oa rows_P,
      list_prices before filter_str false = Ok ob
      /\ list_prices after filter_str false = Ok oa
      /\ Forall2 (fun M r => make_row M = Ok r)
                 (filter (model_matches filter_str) (models_of P)) rows_P
      /\ (forall M, model_matches filter_str M = true <->
                    ci_substring filter_str (get_or (model_id_key M) "")
                    \/ ci_substring filter_str (get_or (model_name_key M) ""))
      /\ rows o = shown_as data sort_by_price (rows ob ++ rows_P ++ rows oa)
      /\ (forall r, In r (rows o) -> shown_in (printed o) r).
Proof.
  intros data filter_str sort_by_price o before after P Hrun -> Hne Hid Hname.
  destruct (list_prices_split _ _ _ _ _ _ Hrun) as (ob & oa & rows_P & Hb & Ha & HP & Hrows).
  destruct (list_prices_traversal _ _ _ _ Hrun) as (_ & _ & _ & _ & Hshown).
  assert (E : normalize filter_str = filter_str).
  { destruct (normalize_cases filter_str) as [[_ E] | E]; [contradiction | assumption]. }
  rewrite E in *.
  assert (Hpm : provider_matches filter_str P = false).
  { destruct (provider_matches filter_str P) eqn:Ep; [|reflexivity].
    apply provider_matches_iff in Ep as [Ep | [Ep | Ep]]; contradiction. }
  exists ob, oa, rows_P. repeat split; try assumption; try apply model_matches_iff.
  unfold selected in HP. erewrite filter_ext in HP; [exact HP|].
  intros M. unfold shown. now rewrite Hpm.
Qed.

(** C3. The filter ["all"], in any letter case, gives the run of the empty
    filter: the same output, the same rows and the same return value (or
    the same exception). *)
Theorem all_is_the_empty_filter :
  forall (data : dataset) (filter_str : string) (sort_by_price : bool),
    Text.lower filter_str = "all" ->
    list_prices data filter_str sort_by_price = list_prices data "" sort_by_price.
Proof.
  intros data filter_str sort_by_price H. unfold list_prices, normalize.
  rewrite H. reflexivity.
Qed.

(** ** The sorted mode *)

Lemma list_prices_sorted_printed (data : dataset) (filter_str : string) (o : outcome) :
  list_prices data filter_str true = Ok o ->
  printed o = sorted_banner ++ print_table (rows o)
              ++ (if exit_code o =? 1 then [no_match_message (normalize filter_str)] else []).
Proof.
  unfold list_prices. rewrite providers_loop_traversal.
  destruct (mapM (provider_segment (normalize filter_str)) data) as [segs|e]; simpl;
    [|discriminate].
  destruct (loop_sorted_quiet segs initial) as [Hout _].
  destruct (negb (String.eqb (normalize filter_str) "") && _);
    intros [= <-]; simpl; rewrite Hout; simpl;
    rewrite ?app_nil_r; reflexivity.
Qed.

(** C4 (amended). When sorting is requested and no row's price sum is NaN,
    the table printed after the banner holds the rows in non-decreasing
    order of price sum; they are the rows of the unsorted traversal (each
    with its provider annotation), and rows whose price sums compare equal
    keep the relative order they have in that traversal. *)
Theorem sorted_rows_are_ordered_and_stable :
  forall (data : dataset) (filter_str : string) (o : outcome),
    list_prices data filter_str true = Ok o ->
    Forall no_nan_price (rows o) ->
    exists u,
      list_prices data filter_str false = Ok u
      /\ printed o = sorted_banner ++ print_table (rows o)
                     ++ (if exit_code o =? 1
                         then [no_match_message (normalize filter_str)] else [])
      /\ StronglySorted price_le (rows o)
      /\ Permutation (rows o) (map (annotate data) (rows u))
      /\ (forall k, filter (same_price k) (rows o)
                    = map (annotate data) (filter (same_price k) (rows u))).
Proof.
  intros data filter_str o Hrun Hnan.
  destruct (list_prices_traversal _ _ _ _ Hrun) as (segs & Hsegs & Hrows & _).
  destruct (list_prices_of_segments data filter_str false segs Hsegs) as (u & Hu & Eu).
  pose proof (list_prices_sorted_printed data filter_str o Hrun) as Hprinted.
  simpl in Hrows, Eu. exists u. rewrite Hrows, Eu in *.
  split; [assumption|]. split; [assumption|].
  assert (Hnan' : Forall no_nan_price (traversal segs)).
  { eapply Permutation_Forall; [apply sort_rows_perm|].
    apply Forall_forall. intros r Hr.
    rewrite Forall_forall in Hnan. specialize (Hnan _ (in_map (annotate data) _ _ Hr)).
    unfold no_nan_price in *. now rewrite annotate_price in Hnan. }
  repeat split.
  - now apply sorted_map_annotate, sort_rows_sorted.
  - apply Permutation_map, sort_rows_perm.
  - intros k. now rewrite filter_same_price_annotate, sort_rows_stable.
Qed.

(** C4, as stated, fails when a price sum is NaN: the sort leaves 2, NaN, 1
    in this order, so a row priced 1 is printed after a row priced 2. *)
Lemma nan_price_breaks_the_order :
  exists o a b,
    list_prices nan_data "" true = Ok o
    /\ map row_Model (rows o) = ["two"; "nan"; "one"]
    /\ nth_error (rows o) 0 = Some a
    /\ nth_error (rows o) 2 = Some b
    /\ Float.ltb (row_PriceSum b) (row_PriceSum a) = true
    /\ ~ StronglySorted price_le (rows o).
Proof.
  destruct (list_prices nan_data "" true) as [o|e] eqn:E; vm_compute in E; [|discriminate].
  injection E as <-.
  do 3 eexists. split; [reflexivity|]. split; [reflexivity|].
  split; [reflexivity|]. split; [reflexivity|]. split; [reflexivity|].
  intros H. inversion H as [|? ? _ Hall]; subst.
  inversion Hall as [|? ? Hnan _]; subst. discriminate Hnan.
Qed.

(** ** The provider annotation *)

Lemma annotate_provider_stable (data : dataset) (row : Row) :
  Forall (fun Q => finds_model (row_Model row) (models_of Q) = false) data ->
  annotate data row = row.
Proof.
  induction 1 as [|Q data HQ _ IH]; simpl; [reflexivity|]. now rewrite HQ.
Qed.

(** The scan goes on after a match ([break] leaves the inner loop only):
    the last provider that has a model with the row's id names the row. *)
Lemma annotate_last_match (before after : list Provider) (P : Provider) (row : Row) :
  finds_model (row_Model row) (models_of P) = true ->
  Forall (fun Q => finds_model (row_Model row) (models_of Q) = false) after ->
  row_Provider (annotate (before ++ P :: after) row)
  = Some (get_or (provider_name_key P) "").
Proof.
  intros HP Hafter. revert row HP Hafter.
  induction before as [|Q before IH]; intros row HP Hafter; simpl.
  - rewrite HP. now rewrite annotate_provider_stable.
  - destruct (finds_model (row_Model row) (models_of Q)); now apply IH.
Qed.

(** C5. On [shared_id_data] the sorted run annotates both rows with
    ["Beta"], the last provider that has a model with the id ["shared"],
    although ["Alpha"] is the earliest one (and the owner of the first
    row): the first match does not win. *)
Theorem annotation_names_the_last_provider :
  exists o,
    list_prices shared_id_data "" true = Ok o
    /\ map row_Name (rows o) = ["From Alpha"; "From Beta"]
    /\ map row_Model (rows o) = ["shared"; "shared"]
    /\ map row_Provider (rows o) = [Some "Beta"; Some "Beta"].
Proof.
  destruct (list_prices shared_id_data "" true) as [o|e] eqn:E; vm_compute in E;
    [|discriminate].
  injection E as <-. eexists. repeat split; reflexivity.
Qed.

(** ** Exit codes *)

Lemma shown_iff (f : string) (P : Provider) (M : Model) :
  shown f P M = true <-> selects f P M.
Proof.
  unfold shown, selects.
  rewrite orb_true_iff, provider_matches_iff, model_matches_iff. tauto.
Qed.

Lemma mapM_length {A B : Type} (f : A -> result B) (l : list A) (bs : list B) :
  mapM f l = Ok bs -> List.length bs = List.length l.
Proof.
  intros H. apply mapM_Forall2 in H. symmetry. eapply Forall2_length; eassumption.
Qed.

Lemma filter_nil_iff {A : Type} (p : A -> bool) (l : list A) :
  filter p l = [] <-> forall a, In a l -> p a = false.
Proof.
  induction l as [|a l IH]; simpl.
  - split; [intros _ ? [] | reflexivity].
  - destruct (p a) eqn:E; split.
    + discriminate.
    + intros H. specialize (H a (or_introl eq_refl)). congruence.
    + intros H b [<- | Hb]; [assumption | now apply IH].
    + intros H. apply IH. intros b Hb. apply H. now right.
Qed.

Lemma traversal_nil_iff (f : string) (data : dataset) (segs : list segment) :
  mapM (provider_segment f) data = Ok segs ->
  (traversal segs = [] <-> nothing_selected f data).
Proof.
  revert segs; induction data as [|P data IH]; intros segs; simpl.
  - intros [= <-]. split; [intros _ P M [] | reflexivity].
  - unfold provider_segment at 1.
    destruct (mapM make_row (selected f P)) as [rs|] eqn:Ers; [|discriminate]. simpl.
    destruct (mapM (provider_segment f) data) as [segs'|] eqn:Es; [|discriminate]. simpl.
    intros [= <-]. unfold traversal; simpl. fold (traversal segs').
    specialize (IH segs' eq_refl).
    apply mapM_length in Ers.
    assert (Hrs : rs = [] <-> selected f P = []).
    { destruct rs, (selected f P); simpl in Ers; try discriminate;
        split; intros E; (reflexivity || discriminate E). }
    unfold selected in Hrs. rewrite filter_nil_iff in Hrs.
    split.
    + intros H. apply app_eq_nil in H as [H1 H2].
      intros Q M [<- | HQ] HM Hsel.
      * apply shown_iff in Hsel. rewrite (proj1 Hrs H1 M HM) in Hsel. discriminate.
      * exact (proj1 IH H2 Q M HQ HM Hsel).
    + intros H.
      assert (E1 : rs = []).
      { apply Hrs. intros M HM. destruct (shown f P M) eqn:E; [|reflexivity].
        apply shown_iff in E. exfalso. exact (H P M (or_introl eq_refl) HM E). }
      assert (E2 : traversal segs' = []).
      { apply IH. intros Q M HQ. apply H. now right. }
      now rewrite E1, E2.
Qed.

Lemma shown_as_nil_iff (data : dataset) (sort_by_price : bool) (rs : list Row) :
  shown_as data sort_by_price rs = [] <-> rs = [].
Proof.
  unfold shown_as. destruct sort_by_price; [|tauto]. split.
  - intros H. apply map_eq_nil in H.
    apply Permutation_nil. rewrite <- H. apply sort_rows_perm.
  - intros ->. reflexivity.
Qed.

(** What a run of [list_prices] that returns, returns. *)
Lemma list_prices_exit_code (data : dataset) (filter_str : string)
    (sort_by_price : bool) (o : outcome) :
  list_prices data filter_str sort_by_price = Ok o ->
  (exit_code o = 0 \/ exit_code o = 1)
  /\ (rows o = [] <-> nothing_selected (normalize filter_str) data)
  /\ (exit_code o = 1 <-> normalize filter_str <> "" /\ rows o = []).
Proof.
  intros H. destruct (list_prices_traversal _ _ _ _ H) as (segs & Hsegs & Hrows & Hcode & _).
  pose proof (traversal_nil_iff _ _ _ Hsegs) as Hnil.
  assert (Hr : rows o = [] <-> traversal segs = [])
    by (rewrite Hrows; apply shown_as_nil_iff).
  rewrite Hcode.
  destruct (String.eqb (normalize filter_str) "") eqn:E; simpl.
  - apply String.eqb_eq in E. split; [now left|]. split; [tauto|].
    split; [discriminate | intros [Hne _]; contradiction].
  - apply String.eqb_neq in E.
    destruct (traversal segs) eqn:Et.
    + split; [now right|]. split; [tauto|]. split; [tauto | reflexivity].
    + split; [now left|]. split; [tauto|].
      split; [discriminate|]. intros [_ Hc]. apply Hr in Hc. discriminate.
Qed.

(** C7. A run of [main] that returns, returns 0 or 1. It returns 1 exactly
    when the effective filter (["all"] normalized away) is not empty and
    no row matched, that is when the filter selects no model of any
    provider; so it returns 0 in every other case, and in particular when
    the line entered in interactive mode strips to the empty string. *)
Theorem exit_code_of_main :
  forall (data : dataset) (args : list string) (stdin : option string) (o : outcome),
    main data args stdin = Ok o ->
    (exit_code o = 0 \/ exit_code o = 1)
    /\ (exit_code o = 1 <-> effective_filter args stdin <> "" /\ rows o = [])
    /\ (exit_code o = 1 <->
        effective_filter args stdin <> ""
        /\ nothing_selected (effective_filter args stdin) data)
    /\ (args = [] -> Text.strip (get_or stdin "") = "" -> exit_code o = 0).
Proof.
  intros data args stdin o. unfold main, effective_filter.
  destruct args as [|arg args].
  - destruct (print_summary data) as [summary|]; simpl; [|discriminate].
    destruct stdin as [line|]; [|discriminate]. simpl.
    destruct (String.eqb (Text.strip line) "") eqn:E.
    + apply String.eqb_eq in E. intros [= <-]. simpl. rewrite E.
      repeat split; try (now left); try discriminate; try reflexivity;
        intros [Hne _]; now elim Hne.
    + destruct (list_prices data (Text.strip line) false) as [o'|] eqn:Erun; [|discriminate].
      simpl. intros [= <-]. simpl.
      destruct (list_prices_exit_code _ _ _ _ Erun) as (H01 & Hnil & H1).
      apply String.eqb_neq in E.
      repeat split; try tauto.
  - destruct (parse_args (arg :: args)) as [filter_str sort_by_price] eqn:Eargs.
    intros Erun. cbn [fst].
    destruct (list_prices_exit_code _ _ _ _ Erun) as (H01 & Hnil & H1).
    repeat split; try tauto. discriminate.
Qed.

(** C10. With no arguments and an empty dataset, [main] raises ValueError:
    the summary has no provider, [max] of no lengths raises, and nothing
    has been printed or asked by then. *)
Theorem interactive_mode_fails_on_empty_data :
  forall (stdin : option string),
    print_summary [] = Raise ValueError
    /\ main [] [] stdin = Raise ValueError.
Proof. intros stdin. split; reflexivity. Qed.

(** ** The grouped (unsorted) mode *)

Lemma provider_changed_same (name : string) :
  provider_changed (Some name) name = false.
Proof. simpl. now rewrite String.eqb_refl. Qed.

(** Once its first row is out, the rest of a provider's rows join the table. *)
Lemma emit_rows_same_provider (name id : string) (rs : list Row) (s : state) :
  current_provider s = Some name ->
  current_provider (fold_left (fun s row => emit_row false name id row s) rs s) = Some name
  /\ table_rows (fold_left (fun s row => emit_row false name id row s) rs s)
     = table_rows s ++ rs
  /\ stdout (fold_left (fun s row => emit_row false name id row s) rs s) = stdout s.
Proof.
  revert s; induction rs as [|r rs IH]; intros s Hcur.
  - simpl. now rewrite app_nil_r.
  - change (fold_left (fun s row => emit_row false name id row s) (r :: rs) s)
      with (fold_left (fun s row => emit_row false name id row s) rs
              (emit_row false name id r s)).
    assert (H1 : current_provider (emit_row false name id r s) = Some name
                 /\ table_rows (emit_row false name id r s) = table_rows s ++ [r]
                 /\ stdout (emit_row false name id r s) = stdout s).
    { unfold emit_row. rewrite Hcur, provider_changed_same. simpl.
      repeat split; reflexivity. }
    destruct H1 as (Hc1 & Ht1 & Ho1).
    destruct (IH _ Hc1) as (Hc & Ht & Ho).
    rewrite Hc, Ht, Ho, Ht1, Ho1, <- app_assoc. repeat split.
Qed.

Lemma emit_segment_changed (seg : segment) (s : state) :
  has_rows (seg_rows seg) = true ->
  provider_changed (current_provider s) (seg_name seg) = true ->
  current_provider (emit_segment false s seg) = Some (seg_name seg)
  /\ table_rows (emit_segment false s seg) = seg_rows seg
  /\ stdout (emit_segment false s seg)
     = stdout s ++ print_table (table_rows s)
       ++ provider_banner (seg_name seg) (seg_id seg).
Proof.
  intros Hrows Hch. unfold emit_segment.
  destruct (seg_rows seg) as [|r rs]; [discriminate|].
  change (fold_left (fun s row => emit_row false (seg_name seg) (seg_id seg) row s)
            (r :: rs) s)
    with (fold_left (fun s row => emit_row false (seg_name seg) (seg_id seg) row s) rs
            (emit_row false (seg_name seg) (seg_id seg) r s)).
  assert (H1 : current_provider (emit_row false (seg_name seg) (seg_id seg) r s)
               = Some (seg_name seg)
               /\ table_rows (emit_row false (seg_name seg) (seg_id seg) r s) = [r]
               /\ stdout (emit_row false (seg_name seg) (seg_id seg) r s)
                  = stdout s ++ print_table (table_rows s)
                    ++ provider_banner (seg_name seg) (seg_id seg)).
  { unfold emit_row. rewrite Hch.
    destruct (table_rows s); simpl; repeat split.
    now rewrite <- app_assoc. }
  destruct H1 as (Hc1 & Ht1 & Ho1).
  destruct (emit_rows_same_provider _ (seg_id seg) rs _ Hc1) as (Hc & Ht & Ho).
  rewrite Hc, Ht, Ho, Ht1, Ho1. repeat split.
Qed.

Lemma finish_unsorted_stdout (data : dataset) (s : state) :
  stdout (finish data false s) = stdout s ++ print_table (table_rows s).
Proof.
  unfold finish. destruct (table_rows s) eqn:E.
  - simpl. now rewrite app_nil_r.
  - reflexivity.
Qed.

Lemma loop_unsorted_stdout (data : dataset) (segs : list segment) (s : state) :
  names_change (current_provider s)
    (map seg_name (filter (fun seg => has_rows (seg_rows seg)) segs)) = true ->
  stdout (finish data false (fold_left (emit_segment false) segs s))
  = stdout s ++ print_table (table_rows s)
    ++ flat_map segment_lines (filter (fun seg => has_rows (seg_rows seg)) segs).
Proof.
  revert s; induction segs as [|seg segs IH]; intros s Hnames.
  - cbn [fold_left filter flat_map]. now rewrite finish_unsorted_stdout, app_nil_r.
  - simpl fold_left. simpl filter in *.
    destruct (has_rows (seg_rows seg)) eqn:Hrows.
    + simpl in Hnames. apply andb_true_iff in Hnames as [Hch Hrest].
      destruct (emit_segment_changed seg s Hrows Hch) as (Hc & Ht & Ho).
      rewrite IH; [|now rewrite Hc].
      rewrite Ht, Ho. simpl flat_map. unfold segment_lines at 2, table_segment.
      now rewrite <- !app_assoc.
    + assert (E : emit_segment false s seg = s).
      { unfold emit_segment. now destruct (seg_rows seg). }
      rewrite E. now apply IH.
Qed.

(** The segments that have rows are those of the row producers. *)
Lemma producers_segments (f : string) (data : dataset) (segs : list segment) :
  mapM (provider_segment f) data = Ok segs ->
  Forall2 (fun P seg =>
             seg_name seg = get_or (provider_name_key P) ""
             /\ seg_id seg = get_or (provider_id_key P) ""
             /\ Forall2 (fun M r => make_row M = Ok r) (selected f P) (seg_rows seg))
          (row_producers f data)
          (filter (fun seg => has_rows (seg_rows seg)) segs).
Proof.
  revert segs; induction data as [|P data IH]; intros segs; simpl.
  - intros [= <-]. constructor.
  - unfold provider_segment at 1.
    destruct (mapM make_row (selected f P)) as [rs|] eqn:Ers; [|discriminate]. simpl.
    destruct (mapM (provider_segment f) data) as [segs'|] eqn:Es; [|discriminate]. simpl.
    intros [= <-]. simpl.
    pose proof (mapM_length _ _ _ Ers) as Hlen. apply mapM_Forall2 in Ers.
    destruct (selected f P) as [|M l] eqn:Esel, rs as [|r rs]; simpl in *;
      try discriminate; [now apply IH|].
    constructor; [|now apply IH].
    repeat split; try reflexivity. simpl. now rewrite Esel.
Qed.

(** C9 (amended). When sorting is not requested and every provider that
    yields rows has a name different from that of the previous provider
    that yields rows, the output is one table segment (banner, then table)
    per provider that yields at least one row, in the order of the data,
    each table holding exactly the rows of that provider's selected
    models; the no-match message follows when the run returns 1. *)
Theorem unsorted_output_is_one_segment_per_provider :
  forall (data : dataset) (filter_str : string) (o : outcome),
    list_prices data filter_str false = Ok o ->
    names_change None
      (map (fun P => get_or (provider_name_key P) "")
           (row_producers (normalize filter_str) data)) = true ->
    exists tables : list (list Row),
      Forall2 (fun P rows_P =>
                 Forall2 (fun M r => make_row M = Ok r)
                         (selected (normalize filter_str) P) rows_P)
              (row_producers (normalize filter_str) data) tables
      /\ printed o =
         flat_map (fun '(P, rows_P) =>
                     table_segment (get_or (provider_name_key P) "")
                                   (get_or (provider_id_key P) "") rows_P)
                  (combine (row_producers (normalize filter_str) data) tables)
         ++ (if exit_code o =? 1 then [no_match_message (normalize filter_str)] else []).
Proof.
  intros data filter_str o Hrun Hnames. set (f := normalize filter_str) in *.
  unfold list_prices in Hrun. fold f in Hrun. rewrite providers_loop_traversal in Hrun.
  destruct (mapM (provider_segment f) data) as [segs|] eqn:Hsegs; [|discriminate].
  simpl in Hrun.
  pose proof (producers_segments f data segs Hsegs) as HF.
  set (live := filter (fun seg => has_rows (seg_rows seg)) segs) in *.
  assert (Hn : map seg_name live = map (fun P => get_or (provider_name_key P) "")
                                       (row_producers f data)).
  { clear -HF. induction HF as [|P seg ps ss (Hname & _) _ IH]; simpl; [reflexivity|].
    now rewrite Hname, IH. }
  assert (Hout : stdout (finish data false (fold_left (emit_segment false) segs initial))
                 = flat_map segment_lines live).
  { rewrite loop_unsorted_stdout; [reflexivity|]. simpl. fold live. now rewrite Hn. }
  assert (Hlines : flat_map segment_lines live
                   = flat_map (fun '(P, rows_P) =>
                                 table_segment (get_or (provider_name_key P) "")
                                               (get_or (provider_id_key P) "") rows_P)
                              (combine (row_producers f data) (map seg_rows live))).
  { clear -HF. induction HF as [|P seg ps ss (Hname & Hid & _) _ IH]; [reflexivity|].
    cbn [flat_map combine map]. rewrite <- IH.
    unfold segment_lines at 1. now rewrite Hname, Hid. }
  exists (map seg_rows live). split.
  - clear -HF. induction HF as [|P seg ps ss (_ & _ & Hrows) _ IH]; simpl; constructor;
      assumption.
  - rewrite <- Hlines, <- Hout.
    destruct (negb (String.eqb f "") && _); injection Hrun as <-; simpl;
      [reflexivity | now rewrite app_nil_r].
Qed.

(** C9, as stated, fails when two consecutive providers share a name: both
    yield a row, but the output has a single banner, that of the first,
    and a single table with the rows of both. *)
Lemma same_name_providers_share_a_segment :
  exists o r1 r2,
    list_prices same_name_data "" false = Ok o
    /\ row_producers "" same_name_data = same_name_data
    /\ rows o = [r1; r2]
    /\ printed o = table_segment "Acme" "east" [r1; r2]
    /\ printed o <> table_segment "Acme" "east" [r1] ++ table_segment "Acme" "west" [r2].
Proof.
  destruct (list_prices same_name_data "" false) as [o|e] eqn:E; vm_compute in E;
    [|discriminate].
  injection E as <-. do 3 eexists.
  split; [reflexivity|]. split; [reflexivity|]. split; [reflexivity|].
  split; [vm_compute; reflexivity|].
  vm_compute. intros H. apply (f_equal (@List.length string)) in H. discriminate H.
Qed.

(** ** Prices *)

(** *** The shape of a formatted price *)

Lemma string_of_uint_digits (d : Decimal.uint) :
  all_digits (DecimalString.NilEmpty.string_of_uint d) = true.
Proof. induction d; simpl; first [assumption | reflexivity]. Qed.

Lemma of_N_digits (n : N) : all_digits (Text.of_N n) = true /\ Text.of_N n <> "".
Proof.
  unfold Text.of_N, DecimalString.NilZero.string_of_uint.
  destruct (N.to_uint n) eqn:E; split; try reflexivity; try discriminate;
    rewrite <- E; first [apply string_of_uint_digits | rewrite E; simpl; discriminate].
Qed.

Lemma of_N_one_digit (n : N) :
  (n < 10)%N -> exists d, Text.of_N n = String d "" /\ Float.is_digit d = true.
Proof.
  intros H.
  assert (Hn : In (N.to_nat n) (seq 0 10)) by (apply in_seq; lia).
  rewrite <- (Nnat.N2Nat.id n). simpl in Hn.
  repeat (destruct Hn as [<- | Hn]; [eexists; split; reflexivity|]).
  contradiction.
Qed.

Lemma fixed2_two_decimal (neg : bool) (c : Z) : is_two_decimal (Float.fixed2 neg c).
Proof.
  unfold Float.fixed2, Float.two_digits.
  assert (Hr : 0 <= c mod 100 < 100) by (apply Z.mod_pos_bound; lia).
  destruct (of_N_one_digit (Z.to_N (c mod 100 / 10))) as (d1 & E1 & H1).
  { apply N2Z.inj_lt. rewrite Z2N.id by (apply Z.div_pos; lia).
    change (Z.of_N 10) with 10. apply Z.div_lt_upper_bound; lia. }
  destruct (of_N_one_digit (Z.to_N ((c mod 100) mod 10))) as (d2 & E2 & H2).
  { apply N2Z.inj_lt. rewrite Z2N.id by (apply Z.mod_pos_bound; lia).
    change (Z.of_N 10) with 10. apply Z.mod_pos_bound; lia. }
  rewrite E1, E2.
  destruct (of_N_digits (Z.to_N (c / 100))) as [Hd Hne].
  exists (Float.sign_str neg), (Text.of_N (Z.to_N (c / 100))), d1, d2.
  repeat split; try assumption.
  destruct neg; [now right | now left].
Qed.

Lemma format_2f_finite (f : float) :
  Float.is_finite f = true -> is_two_decimal (Float.format_2f f).
Proof.
  destruct f; simpl; try discriminate; intros _; apply fixed2_two_decimal.
Qed.

Lemma format_2f_not_finite (f : float) :
  Float.is_finite f = false ->
  Float.format_2f f = "nan" \/ Float.format_2f f = "inf" \/ Float.format_2f f = "-inf".
Proof.
  destruct f as [s|s| |s m e]; simpl; try discriminate; intros _; try destruct s; auto.
Qed.

(** [float] raises nothing but TypeError, ValueError and OverflowError. *)
Lemma py_float_exceptions (v : pyval) (e : exn) :
  py_float v = Raise e -> e <> OverflowError -> catches e = true.
Proof.
  destruct v; simpl; try discriminate; try (intros [= <-]; reflexivity).
  - unfold Float.of_int. destruct (Float.of_Z z); try discriminate.
    intros [= <-] H. now elim H.
  - unfold Float.of_str.
    destruct (Float.drop_underscores _ _); [|intros [= <-]; reflexivity].
    destruct (Float.take_sign l). destruct (Float.parse_abs b l0); [discriminate|].
    intros [= <-]; reflexivity.
Qed.

(** C8 (amended). [format_price(None)] and [format_price("not-a-number")]
    are the empty string and [format_price(3)] is ["$3.00"]. For any
    value other than an integer too large for a float: if the value does
    not convert to a float the result is the empty string; if it converts,
    the result is a dollar sign followed by the [.2f] rendering of the
    float, which has two decimals when the float is finite and is [nan],
    [inf] or [-inf] otherwise. *)
Theorem format_price_spec :
  forall (v : pyval),
    py_float v <> Raise OverflowError ->
    format_price PNone = Ok ""
    /\ format_price (PStr "not-a-number") = Ok ""
    /\ format_price (PInt 3) = Ok "$3.00"
    /\ (forall e, py_float v = Raise e -> format_price v = Ok "")
    /\ (forall f, py_float v = Ok f ->
          format_price v = Ok ("$" +++ Float.format_2f f)
          /\ (Float.is_finite f = true -> is_two_decimal (Float.format_2f f))
          /\ (Float.is_finite f = false ->
              Float.format_2f f = "nan" \/ Float.format_2f f = "inf"
              \/ Float.format_2f f = "-inf")).
Proof.
  intros v Hv. split; [reflexivity|]. split; [reflexivity|]. split; [reflexivity|].
  split.
  - intros e He.
    assert (Hc : catches e = true).
    { apply (py_float_exceptions v e He). intros ->. contradiction. }
    unfold format_price. destruct v; try reflexivity; rewrite He, Hc; reflexivity.
  - intros f Hf. split; [|split; [apply format_2f_finite | apply format_2f_not_finite]].
    unfold format_price. destruct v; try discriminate Hf; now rewrite Hf.
Qed.

(** C8, as stated, fails twice: an infinite price is rendered without
    decimals, and an integer too large for a float raises OverflowError,
    which [format_price] does not catch. *)
Lemma format_price_without_decimals_or_raising :
  format_price (PStr "inf") = Ok "$inf"
  /\ ~ is_two_decimal "inf"
  /\ format_price (PInt (10 ^ 400)) = Raise OverflowError.
Proof.
  split; [reflexivity|]. split; [|vm_compute; reflexivity].
  intros (sign & int_part & d1 & d2 & E & Hsign & _).
  destruct Hsign as [-> | ->]; simpl in E; [|discriminate E].
  do 3 (destruct int_part as [|? int_part]; simpl in E; [discriminate E|];
        injection E as _ E).
  destruct int_part; discriminate E.
Qed.

(** *** The sign of a sum *)

Lemma shr_1_nonneg (mrs : shr_record) : 0 <= shr_m mrs -> 0 <= shr_m (shr_1 mrs).
Proof.
  destruct mrs as [m r s]; simpl. intros H.
  destruct m as [|p|p]; simpl; [lia| |lia].
  destruct p; simpl; lia.
Qed.

Lemma iter_pos_invariant {A : Type} (I : A -> Prop) (f : A -> A) :
  (forall x, I x -> I (f x)) -> forall n x, I x -> I (iter_pos f n x).
Proof.
  intros Hf. induction n as [n IH|n IH|]; intros x Hx; simpl.
  - apply IH, IH, Hf, Hx.
  - apply IH, IH, Hx.
  - apply Hf, Hx.
Qed.

Lemma shr_fexp_nonneg (m e : Z) (l : location) :
  0 <= m -> 0 <= shr_m (fst (shr_fexp Float.prec Float.emax m e l)).
Proof.
  intros Hm. unfold shr_fexp, shr.
  assert (H0 : 0 <= shr_m (shr_record_of_loc m l)).
  { destruct l as [|c]; [exact Hm|]. destruct c; exact Hm. }
  destruct (_ - e) as [|p|p]; simpl; try assumption.
  apply (iter_pos_invariant (fun mrs => 0 <= shr_m mrs)); [apply shr_1_nonneg | assumption].
Qed.

Lemma round_nearest_even_nonneg (m : Z) (l : location) :
  0 <= m -> 0 <= round_nearest_even m l.
Proof.
  intros Hm. unfold round_nearest_even.
  destruct l as [|c]; [assumption|]. destruct c; try destruct (Z.even m); lia.
Qed.

Lemma binary_round_aux_nonneg (mx ex : Z) (lx : location) :
  0 <= mx -> nonneg (binary_round_aux Float.prec Float.emax false mx ex lx).
Proof.
  intros Hm. unfold binary_round_aux.
  pose proof (shr_fexp_nonneg mx ex lx Hm) as H1.
  destruct (shr_fexp Float.prec Float.emax mx ex lx) as [mrs' e']. simpl in H1.
  pose proof (shr_fexp_nonneg _ e' loc_Exact
                (round_nearest_even_nonneg _ (loc_of_shr_record mrs') H1)) as H2.
  destruct (shr_fexp Float.prec Float.emax _ e' loc_Exact) as [mrs'' e'']. simpl in H2.
  destruct (shr_m mrs'') as [|p|p]; [reflexivity| |lia].
  destruct (e'' <=? Float.emax - Float.prec); reflexivity.
Qed.

Lemma binary_round_nonneg (m : positive) (e : Z) :
  nonneg (binary_round Float.prec Float.emax false m e).
Proof.
  unfold binary_round. destruct (shl_align _ _ _) as [mz ez].
  apply binary_round_aux_nonneg. lia.
Qed.

Lemma of_Z_nonneg (z : Z) : 0 <= z -> nonneg (Float.of_Z z).
Proof.
  intros Hz. unfold Float.of_Z, binary_normalize.
  destruct z as [|p|p]; [reflexivity | apply binary_round_nonneg | lia].
Qed.

Lemma add_nonneg (x y : float) : nonneg x -> nonneg y -> nonneg (Float.add x y).
Proof.
  unfold nonneg at 1 2.
  destruct x as [sx|sx| |sx mx ex], y as [sy|sy| |sy my ey];
    try destruct sx; try destruct sy; try discriminate; intros _ _; try reflexivity.
  unfold Float.add, SFadd, binary_normalize. simpl cond_Zopp.
  cbn [Z.add]. apply binary_round_nonneg.
Qed.

(** *** The price sum *)

Lemma price_val_cases (raw : pyval) :
  price_val raw = Ok Float.zero \/ price_val raw = py_float raw.
Proof. unfold price_val. destruct (truthy raw && is_int_float_str raw); auto. Qed.

Lemma price_val_nonneg (raw : pyval) (f : float) :
  nonneg_value raw -> price_val raw = Ok f -> nonneg f.
Proof.
  intros Hraw. destruct (price_val_cases raw) as [-> | ->].
  - intros [= <-]. reflexivity.
  - destruct raw as [|b|z|g|s|l|d]; simpl in *; try discriminate.
    + intros [= <-]. destruct b; reflexivity.
    + unfold Float.of_int. pose proof (of_Z_nonneg z Hraw) as Hz.
      destruct (Float.of_Z z); try discriminate; intros [= <-]; assumption.
    + intros [= <-]. assumption.
    + apply Hraw.
Qed.

Lemma price_val_invalid (raw : pyval) (f : float) :
  invalid raw -> price_val raw = Ok f -> f = Float.zero.
Proof.
  intros (e & He & _). destruct (price_val_cases raw) as [-> | ->].
  - now intros [= <-].
  - rewrite He. discriminate.
Qed.

Lemma price_val_raises (raw : pyval) (e : exn) :
  py_float raw <> Raise OverflowError -> price_val raw = Raise e -> catches e = true.
Proof.
  intros Hov. destruct (price_val_cases raw) as [-> | ->]; [discriminate|].
  intros He. apply (py_float_exceptions raw e He). intros ->. contradiction.
Qed.

(** The [try] block returns when no value overflows: each part is the
    converted value or [0.0]. *)
Lemma price_vals_returns (prices : dict) :
  let input_raw := get_or (dict_get prices "input_mtok") (PInt 0) in
  let output_raw := get_or (dict_get prices "output_mtok") (PInt 0) in
  py_float input_raw <> Raise OverflowError ->
  py_float output_raw <> Raise OverflowError ->
  exists input_val output_val,
    price_vals prices = Ok (input_val, output_val)
    /\ (price_val input_raw = Ok input_val
        \/ (exists e, price_val input_raw = Raise e) /\ input_val = Float.zero)
    /\ (price_val output_raw = Ok output_val \/ output_val = Float.zero).
Proof.
  intros input_raw output_raw Hin Hout.
  unfold price_vals. fold input_raw output_raw.
  destruct (price_val input_raw) as [iv|e] eqn:Ei.
  - destruct (price_val output_raw) as [ov|e] eqn:Eo.
    + exists iv, ov. auto.
    + rewrite (price_val_raises _ _ Hout Eo). exists iv, Float.zero. auto.
  - rewrite (price_val_raises _ _ Hin Ei). exists Float.zero, Float.zero.
    split; [reflexivity|]. split; [right; split; [now exists e | reflexivity] | now right].
Qed.

(** C6 (amended). For every model record, whatever the shape of its
    [prices] field, provided neither [input_mtok] nor [output_mtok] is an
    integer too large for a float: the price sum is computed without
    raising, as the float sum of an input and an output part; a part whose
    value is absent or does not convert to a float is exactly [0.0] (both
    are when [prices] is missing or not a dict); and the sum is
    non-negative when the two values, where they are numbers, are not
    below zero. *)
Theorem price_sum_spec :
  forall (model : Model),
    let prices := prices_of model in
    let input_raw := get_or (dict_get prices "input_mtok") (PInt 0) in
    let output_raw := get_or (dict_get prices "output_mtok") (PInt 0) in
    py_float input_raw <> Raise OverflowError ->
    py_float output_raw <> Raise OverflowError ->
    exists input_val output_val,
      price_vals prices = Ok (input_val, output_val)
      /\ price_sum prices = Ok (Float.add input_val output_val)
      /\ (absent prices "input_mtok" \/ invalid input_raw -> input_val = Float.zero)
      /\ (absent prices "output_mtok" \/ invalid output_raw -> output_val = Float.zero)
      /\ ((forall d, model_prices_key model <> Some (PDict d)) ->
          input_val = Float.zero /\ output_val = Float.zero)
      /\ (nonneg_value input_raw -> nonneg_value output_raw ->
          nonneg (Float.add input_val output_val)).
Proof.
  intros model prices input_raw output_raw Hin Hout.
  assert (Habs : forall key, absent prices key ->
                             price_val (get_or (dict_get prices key) (PInt 0)) = Ok Float.zero).
  { intros key [E | E]; rewrite E; reflexivity. }
  assert (Hnodict : (forall d, model_prices_key model <> Some (PDict d)) -> prices = []).
  { intros H. subst prices. unfold prices_of.
    destruct (model_prices_key model) as [[| | | | | |d]|]; try reflexivity.
    now elim (H d). }
  pose proof (price_vals_returns prices Hin Hout) as Hvals.
  fold input_raw output_raw in Hvals.
  destruct Hvals as (iv & ov & Hpv & Hi & Ho).
  exists iv, ov. split; [assumption|].
  split; [unfold price_sum; now rewrite Hpv|].
  assert (Hiz : absent prices "input_mtok" \/ invalid input_raw -> iv = Float.zero).
  { intros [Ha | Hinv]; destruct Hi as [Hi | [_ Hi]]; try assumption.
    - apply Habs in Ha. fold input_raw in Ha. congruence.
    - now apply (price_val_invalid input_raw). }
  assert (Hoz : absent prices "output_mtok" \/ invalid output_raw -> ov = Float.zero).
  { intros [Ha | Hinv]; destruct Ho as [Ho | Ho]; try assumption.
    - apply Habs in Ha. fold output_raw in Ha. congruence.
    - now apply (price_val_invalid output_raw). }
  split; [assumption|]. split; [assumption|]. split.
  - intros H. apply Hnodict in H.
    split; [apply Hiz | apply Hoz]; left; left; rewrite H; reflexivity.
  - intros Hni Hno. apply add_nonneg.
    + destruct Hi as [Hi | [_ ->]]; [now apply (price_val_nonneg input_raw) | reflexivity].
    + destruct Ho as [Ho | ->]; [now apply (price_val_nonneg output_raw) | reflexivity].
Qed.

(** C6, as stated, fails: a negative price gives a negative sum, a price
    given as the text ["nan"] gives a sum that is not a number, and an
    integer too large for a float makes the computation raise
    OverflowError. *)
Lemma price_sum_negative_nan_or_raising :
  (exists f, price_sum (prices_of (priced "m" (PInt (-1)))) = Ok f
             /\ Float.ltb f Float.zero = true)
  /\ (exists f, price_sum (prices_of (priced "m" (PStr "nan"))) = Ok f
                /\ Float.leb Float.zero f = false)
  /\ price_sum (prices_of (priced "m" (PInt (10 ^ 400)))) = Raise OverflowError.
Proof.
  split; [|split].
  - eexists. split; [vm_compute; reflexivity | reflexivity].
  - eexists. split; [vm_compute; reflexivity | reflexivity].
  - vm_compute. reflexivity.
Qed.

(** ** Runs that return *)

Lemma format_price_returns (v : pyval) :
  py_float v <> Raise OverflowError -> exists s, format_price v = Ok s.
Proof.
  intros Hv. unfold format_price.
  destruct (py_float v) as [f|e] eqn:E.
  - destruct v; eexists; reflexivity.
  - assert (Hc : catches e = true).
    { apply (py_float_exceptions v e E). intros ->. contradiction. }
    rewrite Hc. destruct v; eexists; reflexivity.
Qed.

Lemma get_in_range (model : Model) (key : string) (default : pyval) :
  prices_in_range model ->
  py_float default <> Raise OverflowError ->
  py_float (get_or (dict_get (prices_of model) key) default) <> Raise OverflowError.
Proof.
  intros Hm Hd. destruct (dict_get (prices_of model) key) as [v|] eqn:E; simpl.
  - exact (Hm key v E).
  - exact Hd.
Qed.

Lemma make_row_returns (model : Model) :
  prices_in_range model -> exists row, make_row model = Ok row.
Proof.
  intros Hm. unfold make_row.
  destruct (format_price_returns _ (get_in_range model "input_mtok" PNone Hm
              ltac:(discriminate))) as [s1 ->].
  destruct (format_price_returns _ (get_in_range model "cache_write_mtok" PNone Hm
              ltac:(discriminate))) as [s2 ->].
  destruct (format_price_returns _ (get_in_range model "cache_read_mtok" PNone Hm
              ltac:(discriminate))) as [s3 ->].
  destruct (format_price_returns _ (get_in_range model "output_mtok" PNone Hm
              ltac:(discriminate))) as [s4 ->].
  destruct (price_vals_returns (prices_of model)
              (get_in_range model "input_mtok" (PInt 0) Hm ltac:(discriminate))
              (get_in_range model "output_mtok" (PInt 0) Hm ltac:(discriminate)))
    as (iv & ov & Hvals & _).
  unfold price_sum. rewrite Hvals. simpl. eexists; reflexivity.
Qed.

Lemma mapM_returns {A B : Type} (f : A -> result B) (l : list A) :
  (forall a, In a l -> exists b, f a = Ok b) -> exists bs, mapM f l = Ok bs.
Proof.
  induction l as [|a l IH]; intros H; simpl; [now exists []|].
  destruct (H a (or_introl eq_refl)) as [b ->].
  destruct IH as [bs ->]; [intros x Hx; apply H; now right|].
  simpl. eexists; reflexivity.
Qed.

(** [list_prices] returns when no price is an integer out of float range. *)
Lemma list_prices_returns (data : dataset) (filter_str : string) (sort_by_price : bool) :
  data_in_range data -> exists o, list_prices data filter_str sort_by_price = Ok o.
Proof.
  intros Hdata.
  destruct (mapM_returns (provider_segment (normalize filter_str)) data) as [segs Hsegs].
  - intros P HP. unfold provider_segment.
    destruct (mapM_returns make_row (selected (normalize filter_str) P)) as [rs ->].
    + intros M HM. apply make_row_returns. apply (Hdata P M HP).
      unfold selected in HM. now apply filter_In in HM.
    + simpl. eexists; reflexivity.
  - destruct (list_prices_of_segments data filter_str sort_by_price segs Hsegs) as (o & Ho & _).
    now exists o.
Qed.

(** With arguments, so does [main]. *)
Lemma main_returns (data : dataset) (arg : string) (args : list string)
    (stdin : option string) :
  data_in_range data -> exists o, main data (arg :: args) stdin = Ok o.
Proof.
  intros Hdata. unfold main. destruct (parse_args (arg :: args)) as [f s].
  now apply list_prices_returns.
Qed.

(** *** The interactive mode *)

Lemma summary_val_raises (raw : pyval) (e : exn) :
  py_float raw <> Raise OverflowError -> summary_val raw = Raise e -> catches e = true.
Proof.
  intros Hov. unfold summary_val. destruct (truthy raw); [|discriminate].
  intros He. apply (py_float_exceptions raw e He). intros ->. contradiction.
Qed.

Lemma summary_try_returns (d : dict) (prices : list float) :
  (forall key v, dict_get d key = Some v -> py_float v <> Raise OverflowError) ->
  exists prices', summary_try d prices = Ok prices'.
Proof.
  intros Hd. unfold summary_try.
  assert (Hraw : forall key, py_float (get_or (dict_get d key) (PInt 0))
                            <> Raise OverflowError).
  { intros key. destruct (dict_get d key) as [v|] eqn:E; simpl;
      [exact (Hd key v E) | discriminate]. }
  destruct (summary_val (get_or (dict_get d "input_mtok") (PInt 0))) as [iv|e] eqn:Ei; simpl.
  - destruct (summary_val (get_or (dict_get d "output_mtok") (PInt 0))) as [ov|e] eqn:Eo; simpl.
    + eexists; reflexivity.
    + rewrite (summary_val_raises _ _ (Hraw _) Eo). eexists; reflexivity.
  - rewrite (summary_val_raises _ _ (Hraw _) Ei). eexists; reflexivity.
Qed.

Lemma summary_prices_returns (models : list Model) (prices : list float) :
  (forall M, In M models -> prices_in_range M) ->
  exists prices', summary_prices models prices = Ok prices'.
Proof.
  revert prices; induction models as [|M models IH]; intros prices Hm; simpl.
  - eexists; reflexivity.
  - assert (HM : prices_in_range M) by (apply Hm; now left).
    assert (Hrest : forall M', In M' models -> prices_in_range M')
      by (intros M' H'; apply Hm; now right).
    unfold prices_in_range, prices_of in HM.
    destruct (get_or (model_prices_key M) (PDict [])) as [| | | | | |d]; try now apply IH.
    destruct (summary_try_returns d prices HM) as [prices' ->]. simpl. now apply IH.
Qed.

Lemma summarize_returns (data : dataset) :
  data_in_range data ->
  exists entries, summarize data = Ok entries /\ List.length entries = List.length data.
Proof.
  induction data as [|P data IH]; intros Hdata; simpl.
  - now exists [].
  - destruct (summary_prices_returns (models_of P) []) as [prices ->].
    { intros M HM. apply (Hdata P M); [now left | assumption]. }
    simpl. destruct IH as (entries & -> & Hlen).
    { intros Q M HQ. apply Hdata. now right. }
    destruct prices; simpl; eexists; (split; [reflexivity|]); simpl; now rewrite Hlen.
Qed.

Lemma print_summary_returns (data : dataset) :
  data <> [] -> data_in_range data -> exists lines, print_summary data = Ok lines.
Proof.
  intros Hne Hdata. unfold print_summary.
  destruct (summarize_returns data Hdata) as (entries & -> & Hlen). simpl.
  destruct entries as [|entry entries];
    [destruct data; [contradiction | discriminate]|].
  simpl. eexists; reflexivity.
Qed.

(** With data and no arguments, an entry that strips to nothing ends the
    run with the return value 0. *)
Lemma interactive_early_exit (data : dataset) (line : string) :
  data <> [] -> data_in_range data -> Text.strip line = "" ->
  exists summary,
    print_summary data = Ok summary
    /\ main data [] (Some line)
       = Ok {| printed := summary ++ [prompt; print "No filter provided. Exiting."];
               rows := [];
               exit_code := 0 |}.
Proof.
  intros Hne Hdata Hline.
  destruct (print_summary_returns data Hne Hdata) as [summary Hs].
  exists summary. split; [assumption|].
  unfold main. rewrite Hs. simpl. now rewrite Hline.
Qed.

(** ** The properties on the sample dataset *)

Lemma matching_provider_lists_every_model_witness :
  list_prices Sample.data "ACME" true = Ok Sample.acme_sorted
  /\ Sample.data = [] ++ Sample.acme :: [Sample.bolt]
  /\ ci_substring "ACME" (get_or (provider_id_key Sample.acme) "")
  /\ exists ob oa rows_P,
      list_prices [] "ACME" false = Ok ob
      /\ list_prices [Sample.bolt] "ACME" false = Ok oa
      /\ Forall2 (fun M r => make_row M = Ok r) (models_of Sample.acme) rows_P
      /\ rows Sample.acme_sorted = shown_as Sample.data true (rows ob ++ rows_P ++ rows oa)
      /\ (forall r, In r rows_P -> In (annotate Sample.data r) (rows Sample.acme_sorted))
      /\ (forall r, In r (rows Sample.acme_sorted) ->
                    shown_in (printed Sample.acme_sorted) r).
Proof.
  assert (Hsub : ci_substring "ACME" (get_or (provider_id_key Sample.acme) ""))
    by (exists "", ""; reflexivity).
  split; [vm_compute; reflexivity|]. split; [reflexivity|]. split; [exact Hsub|].
  apply (matching_provider_lists_every_model
           Sample.data "ACME" true Sample.acme_sorted [] [Sample.bolt] Sample.acme).
  - vm_compute; reflexivity.
  - reflexivity.
  - right; left; exact Hsub.
Defined.

Lemma unmatched_provider_lists_matching_models_witness :
  list_prices Sample.data "hai" false = Ok Sample.hai_grouped
  /\ Sample.data = [Sample.acme] ++ Sample.bolt :: []
  /\ normalize "hai" <> ""
  /\ ~ ci_substring "hai" (get_or (provider_id_key Sample.bolt) "")
  /\ ~ ci_substring "hai" (get_or (provider_name_key Sample.bolt) "")
  /\ exists ob oa rows_P,
      list_prices [Sample.acme] "hai" false = Ok ob
      /\ list_prices [] "hai" false = Ok oa
      /\ Forall2 (fun M r => make_row M = Ok r)
                 (filter (model_matches "hai") (models_of Sample.bolt)) rows_P
      /\ (forall M, model_matches "hai" M = true <->
                    ci_substring "hai" (get_or (model_id_key M) "")
                    \/ ci_substring "hai" (get_or (model_name_key M) ""))
      /\ rows Sample.hai_grouped = shown_as Sample.data false (rows ob ++ rows_P ++ rows oa)
      /\ (forall r, In r (rows Sample.hai_grouped) ->
                    shown_in (printed Sample.hai_grouped) r).
Proof.
  assert (Hne : normalize "hai" <> "") by (vm_compute; discriminate).
  assert (Hid : ~ ci_substring "hai" (get_or (provider_id_key Sample.bolt) "")).
  { intros H. apply matches_filter_iff in H. vm_compute in H. discriminate H. }
  assert (Hname : ~ ci_substring "hai" (get_or (provider_name_key Sample.bolt) "")).
  { intros H. apply matches_filter_iff in H. vm_compute in H. discriminate H. }
  split; [vm_compute; reflexivity|]. split; [reflexivity|].
  split; [exact Hne|]. split; [exact Hid|]. split; [exact Hname|].
  apply (unmatched_provider_lists_matching_models
           Sample.data "hai" false Sample.hai_grouped [Sample.acme] [] Sample.bolt).
  - vm_compute; reflexivity.
  - reflexivity.
  - exact Hne.
  - exact Hid.
  - exact Hname.
Defined.

Lemma all_is_the_empty_filter_witness :
  Text.lower "ALL" = "all"
  /\ list_prices Sample.data "ALL" true = list_prices Sample.data "" true.
Proof.
  split; [reflexivity|].
  apply (all_is_the_empty_filter Sample.data "ALL" true). reflexivity.
Defined.

Lemma sorted_rows_are_ordered_and_stable_witness :
  list_prices Sample.data "all" true = Ok Sample.all_sorted
  /\ Forall no_nan_price (rows Sample.all_sorted)
  /\ exists u,
      list_prices Sample.data "all" false = Ok u
      /\ printed Sample.all_sorted
         = sorted_banner ++ print_table (rows Sample.all_sorted)
           ++ (if exit_code Sample.all_sorted =? 1
               then [no_match_message (normalize "all")] else [])
      /\ StronglySorted price_le (rows Sample.all_sorted)
      /\ Permutation (rows Sample.all_sorted) (map (annotate Sample.data) (rows u))
      /\ (forall k, filter (same_price k) (rows Sample.all_sorted)
                    = map (annotate Sample.data) (filter (same_price k) (rows u))).
Proof.
  assert (Hnan : Forall no_nan_price (rows Sample.all_sorted))
    by (repeat constructor).
  split; [vm_compute; reflexivity|]. split; [exact Hnan|].
  apply (sorted_rows_are_ordered_and_stable Sample.data "all" Sample.all_sorted).
  - vm_compute; reflexivity.
  - exact Hnan.
Defined.

Lemma price_sum_spec_witness :
  py_float (get_or (dict_get (prices_of Sample.big) "input_mtok") (PInt 0))
    <> Raise OverflowError
  /\ py_float (get_or (dict_get (prices_of Sample.big) "output_mtok") (PInt 0))
    <> Raise OverflowError
  /\ exists input_val output_val,
      price_vals (prices_of Sample.big) = Ok (input_val, output_val)
      /\ price_sum (prices_of Sample.big) = Ok (Float.add input_val output_val)
      /\ nonneg (Float.add input_val output_val).
Proof.
  assert (Hin : py_float (get_or (dict_get (prices_of Sample.big) "input_mtok") (PInt 0))
                <> Raise OverflowError) by (vm_compute; discriminate).
  assert (Hout : py_float (get_or (dict_get (prices_of Sample.big) "output_mtok") (PInt 0))
                 <> Raise OverflowError) by (vm_compute; discriminate).
  split; [exact Hin|]. split; [exact Hout|].
  destruct (price_sum_spec Sample.big Hin Hout)
    as (iv & ov & Hvals & Hsum & _ & _ & _ & Hnonneg).
  exists iv, ov. split; [exact Hvals|]. split; [exact Hsum|].
  apply Hnonneg.
  - simpl. lia.
  - simpl. intros f Hf. vm_compute in Hf. injection Hf as <-. reflexivity.
Defined.

Lemma exit_code_of_main_witness :
  main Sample.data ["zzz"; "--sort"] None = Ok Sample.no_match
  /\ exit_code Sample.no_match = 1
  /\ (exit_code Sample.no_match = 1 <->
      effective_filter ["zzz"; "--sort"] None <> ""
      /\ nothing_selected (effective_filter ["zzz"; "--sort"] None) Sample.data).
Proof.
  split; [vm_compute; reflexivity|]. split; [reflexivity|].
  apply (exit_code_of_main Sample.data ["zzz"; "--sort"] None Sample.no_match).
  vm_compute; reflexivity.
Defined.

Lemma format_price_spec_witness :
  py_float (PStr "2.5") <> Raise OverflowError
  /\ format_price (PStr "2.5") = Ok "$2.50"
  /\ is_two_decimal "2.50".
Proof.
  assert (H : py_float (PStr "2.5") <> Raise OverflowError) by (vm_compute; discriminate).
  split; [exact H|].
  destruct (format_price_spec (PStr "2.5") H) as (_ & _ & _ & _ & Hok).
  destruct (Hok (S754_finite false 5629499534213120 (-51))) as (Hfmt & Hdec & _);
    [vm_compute; reflexivity|].
  split; [exact Hfmt | exact (Hdec eq_refl)].
Defined.

Lemma unsorted_output_is_one_segment_per_provider_witness :
  list_prices Sample.data "" false = Ok Sample.all_grouped
  /\ names_change None
       (map (fun P => get_or (provider_name_key P) "")
            (row_producers (normalize "") Sample.data)) = true
  /\ exists tables : list (list Row),
      Forall2 (fun P rows_P =>
                 Forall2 (fun M r => make_row M = Ok r)
                         (selected (normalize "") P) rows_P)
              (row_producers (normalize "") Sample.data) tables
      /\ printed Sample.all_grouped =
         flat_map (fun '(P, rows_P) =>
                     table_segment (get_or (provider_name_key P) "")
                                   (get_or (provider_id_key P) "") rows_P)
                  (combine (row_producers (normalize "") Sample.data) tables)
         ++ (if exit_code Sample.all_grouped =? 1
             then [no_match_message (normalize "")] else []).
Proof.
  split; [vm_compute; reflexivity|]. split; [vm_compute; reflexivity|].
  apply (unsorted_output_is_one_segment_per_provider Sample.data "" Sample.all_grouped).
  - vm_compute; reflexivity.
  - vm_compute; reflexivity.
Defined.

(** * More properties of the code *)

(** ** [print_table] *)

Lemma length_app_string (a b : string) :
  String.length (a +++ b) = (String.length a + String.length b)%nat.
Proof. induction a as [|c a IH]; simpl; [reflexivity | now rewrite IH]. Qed.

Lemma length_repeat_char (c : ascii) (n : nat) :
  String.length (Text.repeat_char c n) = n.
Proof. induction n as [|n IH]; simpl; [reflexivity | now rewrite IH]. Qed.

Lemma length_ljust (s : string) (w : nat) :
  (String.length s <= w)%nat -> String.length (Text.ljust s w) = w.
Proof.
  intros H. unfold Text.ljust. rewrite length_app_string, length_repeat_char. lia.
Qed.

Lemma length_rjust (s : string) (w : nat) :
  (String.length s <= w)%nat -> String.length (Text.rjust s w) = w.
Proof.
  intros H. unfold Text.rjust. rewrite length_app_string, length_repeat_char. lia.
Qed.

Lemma length_join (sep : string) (parts : list string) :
  parts <> [] ->
  String.length (Text.join sep parts)
  = (list_sum (map String.length parts)
     + String.length sep * (List.length parts - 1))%nat.
Proof.
  induction parts as [|p rest IH]; intros Hne; [contradiction|].
  destruct rest as [|q rest].
  - simpl. lia.
  - change (Text.join sep (p :: q :: rest)) with (p +++ sep +++ Text.join sep (q :: rest)).
    rewrite !length_app_string, IH by discriminate. simpl. lia.
Qed.

Lemma max_list_bound (n : nat) (l : list nat) : In n l -> (n <= max_list l)%nat.
Proof.
  induction l as [|m l IH]; simpl; intros H; [contradiction|].
  destruct H as [<- | H]; [lia | specialize (IH H); lia].
Qed.

Lemma length_cell (rows : list Row) (col text : string) :
  (String.length text <= col_width rows col)%nat ->
  String.length (cell rows col text) = col_width rows col.
Proof.
  intros H. unfold cell. destruct (is_text_col col);
    [now apply length_ljust | now apply length_rjust].
Qed.

Lemma row_fits (rows : list Row) (col : string) (row : Row) :
  In row rows -> (String.length (row_get row col) <= col_width rows col)%nat.
Proof.
  intros H. unfold col_width.
  assert (Hb : (String.length (row_get row col)
                <= max_list (map (fun r => String.length (row_get r col)) rows))%nat).
  { apply max_list_bound. apply in_map_iff. now exists row. }
  lia.
Qed.

Lemma length_cells (rows : list Row) (cols : list string) (text : string -> string) :
  (forall col, (String.length (text col) <= col_width rows col)%nat) ->
  map String.length (map (fun col => cell rows col (text col)) cols)
  = map (col_width rows) cols.
Proof.
  intros H. rewrite map_map. apply map_ext. intros col. now apply length_cell.
Qed.

Lemma length_print (s : string) : String.length (print s) = S (String.length s).
Proof. unfold print. rewrite length_app_string. simpl. lia. Qed.

(** X1. [print_table] on at least one row prints a header, a separator and
    one line per row, and all these lines have the same length: the widths
    of the columns, three characters between two columns, and the
    newline. *)
Theorem print_table_is_rectangular :
  forall (rows : list Row),
    rows <> [] ->
    List.length (print_table rows) = (2 + List.length rows)%nat
    /\ Forall (fun line => String.length line = table_width rows) (print_table rows).
Proof.
  intros rows Hne. destruct rows as [|r0 rest] eqn:E; [contradiction|]. rewrite <- E in *.
  assert (Hpt : print_table rows =
    print (Text.join " | " (map (fun col => cell rows col col)
                                (columns (existsb has_provider_key rows))))
    :: print (Text.join "-+-" (map (fun col => Text.repeat_char "-" (col_width rows col))
                                   (columns (existsb has_provider_key rows))))
    :: map (fun row => print (table_line rows (columns (existsb has_provider_key rows)) row))
           rows).
  { rewrite E. reflexivity. }
  rewrite Hpt. clear Hpt. split; [simpl; now rewrite length_map|].
  set (cols := columns (existsb has_provider_key rows)).
  assert (Hcols : cols <> []) by (subst cols; destruct (existsb _ _); discriminate).
  assert (Hw : forall parts sep,
             String.length sep = 3%nat ->
             map String.length parts = map (col_width rows) cols ->
             String.length (print (Text.join sep parts)) = table_width rows).
  { intros parts sep Hsep Hparts.
    assert (Hlen : List.length parts = List.length cols).
    { rewrite <- (length_map String.length parts), Hparts. apply length_map. }
    rewrite length_print, length_join.
    - rewrite Hparts, Hsep, Hlen. unfold table_width. fold cols. lia.
    - intros ->. destruct cols; [contradiction | discriminate]. }
  constructor; [|constructor].
  - apply Hw; [reflexivity|].
    apply (length_cells rows cols (fun col => col)). intros col. unfold col_width. lia.
  - apply Hw; [reflexivity|]. rewrite map_map. apply map_ext.
    intros col. apply length_repeat_char.
  - apply Forall_forall. intros line Hline. apply in_map_iff in Hline as (row & <- & Hrow).
    unfold table_line. apply Hw; [reflexivity|].
    apply (length_cells rows cols (fun col => row_get row col)).
    intros col. now apply row_fits.
Qed.

(** ** [main] with arguments *)

Lemma last_cons {A : Type} (a d : A) (l : list A) : last (a :: l) d = last l a.
Proof.
  revert a d; induction l as [|x l IH]; intros a d; [reflexivity|].
  change (last (a :: x :: l) d) with (last (x :: l) d). now rewrite !IH.
Qed.

Lemma parse_args_from (args : list string) (acc : string * bool) :
  fold_left
    (fun (acc : string * bool) (arg : string) =>
       if String.eqb arg "--sort" then (fst acc, true) else (arg, snd acc))
    args acc
  = (last (filter (fun arg => negb (is_sort_flag arg)) args) (fst acc),
     snd acc || existsb is_sort_flag args).
Proof.
  revert acc; induction args as [|arg args IH]; intros [f s].
  - simpl. now rewrite orb_false_r.
  - cbn [fold_left filter existsb].
    change (is_sort_flag arg) with (String.eqb arg "--sort").
    destruct (String.eqb arg "--sort") eqn:E; rewrite IH; cbn [fst snd negb].
    + now rewrite orb_true_r.
    + rewrite orb_false_l. f_equal. symmetry. apply last_cons.
Qed.

(** X2. With arguments, [main] is [list_prices] on the last argument that
    is not [--sort] (the empty filter when there is none), sorting exactly
    when [--sort] occurs among the arguments, wherever it stands; the
    standard input is not read. *)
Theorem main_with_arguments :
  forall (data : dataset) (args : list string) (stdin : option string),
    args <> [] ->
    main data args stdin
    = list_prices data
        (last (filter (fun arg => negb (is_sort_flag arg)) args) "")
        (existsb is_sort_flag args).
Proof.
  intros data args stdin Hne. unfold main.
  destruct args as [|arg args]; [contradiction|].
  unfold parse_args. rewrite parse_args_from. reflexivity.
Qed.

(** ** The interactive entry *)

Lemma lstrip_by_nil_iff (p : ascii -> bool) (l : list ascii) :
  Text.lstrip_by p l = [] <-> forallb p l = true.
Proof.
  induction l as [|c l IH]; simpl; [tauto|].
  destruct (p c); simpl; [exact IH|]. split; discriminate.
Qed.

Lemma lstrip_by_keeps_all (p : ascii -> bool) (l : list ascii) :
  forallb p (Text.lstrip_by p l) = true -> Text.lstrip_by p l = [].
Proof.
  induction l as [|c l IH]; simpl; [reflexivity|].
  destruct (p c) eqn:E; [exact IH|]. simpl. rewrite E. discriminate.
Qed.

Lemma forallb_rev {A : Type} (p : A -> bool) (l : list A) :
  forallb p (rev l) = forallb p l.
Proof.
  induction l as [|a l IH]; simpl; [reflexivity|].
  rewrite forallb_app, IH. simpl. rewrite andb_true_r. apply andb_comm.
Qed.

Lemma strip_by_nil_iff (p : ascii -> bool) (l : list ascii) :
  Text.strip_by p l = [] <-> forallb p l = true.
Proof.
  unfold Text.strip_by. split.
  - intros H. apply (f_equal (@rev ascii)) in H. rewrite rev_involutive in H. simpl in H.
    apply lstrip_by_nil_iff in H. rewrite forallb_rev in H.
    apply lstrip_by_keeps_all in H. now apply lstrip_by_nil_iff.
  - intros H. apply lstrip_by_nil_iff in H. rewrite H. reflexivity.
Qed.

Lemma strip_empty_iff (line : string) : Text.strip line = "" <-> blank line = true.
Proof.
  unfold Text.strip, blank. rewrite <- strip_by_nil_iff.
  destruct (Text.strip_by Text.is_space (list_ascii_of_string line)); simpl;
    split; intros H; (reflexivity || discriminate H).
Qed.

(** X3. In interactive mode, once the summary is printed: a line that is
    empty or white space only ends the run with the value 0 and no
    listing; any other line is stripped and used as the filter of an
    unsorted [list_prices], whose output follows the prompt and whose
    return value is that of [main]. *)
Theorem interactive_entry :
  forall (data : dataset) (line : string) (summary : list string),
    print_summary data = Ok summary ->
    (blank line = true ->
     main data [] (Some line)
     = Ok {| printed := summary ++ [prompt; print "No filter provided. Exiting."];
             rows := [];
             exit_code := 0 |})
    /\ (blank line = false ->
        Text.strip line <> ""
        /\ main data [] (Some line)
           = (o <- list_prices data (Text.strip line) false ;;
              Ok {| printed := summary ++ [prompt] ++ printed o;
                    rows := rows o;
                    exit_code := exit_code o |})).
Proof.
  intros data line summary Hs. unfold main. rewrite Hs. simpl. split.
  - intros Hb. apply strip_empty_iff in Hb. now rewrite Hb.
  - intros Hb.
    assert (Hne : Text.strip line <> "").
    { intros E. apply strip_empty_iff in E. congruence. }
    split; [exact Hne|]. apply String.eqb_neq in Hne. now rewrite Hne.
Qed.

(** ** Which rows a run shows *)

Lemma mapM_In {A B : Type} (f : A -> result B) (l : list A) (bs : list B) (b : B) :
  mapM f l = Ok bs -> (In b bs <-> exists a, In a l /\ f a = Ok b).
Proof.
  intros H. apply mapM_Forall2 in H. induction H as [|a b' l bs Hab _ IH]; simpl.
  - split; [intros [] | intros (a & [] & _)].
  - rewrite IH. split.
    + intros [<- | (a' & Hin & Ha')]; [exists a; auto | exists a'; auto].
    + intros (a' & [<- | Hin] & Ha'); [left; congruence | right; now exists a'].
Qed.

(** A row is in the traversal exactly when it is the row of a model that
    the filter shows. *)
Lemma in_traversal (f : string) (data : dataset) (segs : list segment) (r : Row) :
  mapM (provider_segment f) data = Ok segs ->
  (In r (traversal segs) <->
   exists P M, In P data /\ In M (models_of P) /\ shown f P M = true
               /\ make_row M = Ok r).
Proof.
  revert segs; induction data as [|P data IH]; intros segs; simpl.
  - intros [= <-]. split; [intros [] | intros (P & M & [] & _)].
  - unfold provider_segment at 1.
    destruct (mapM make_row (selected f P)) as [rs|] eqn:Ers; [|discriminate]. simpl.
    destruct (mapM (provider_segment f) data) as [segs'|] eqn:Es; [|discriminate]. simpl.
    intros [= <-]. unfold traversal; simpl. fold (traversal segs').
    rewrite in_app_iff, (IH segs' eq_refl), (mapM_In _ _ _ r Ers). unfold selected.
    split.
    + intros [(M & HM & Hr) | (Q & M & HQ & HM & Hs & Hr)].
      * apply filter_In in HM as [HM Hs]. exists P, M. auto.
      * exists Q, M. auto.
    + intros (Q & M & [<- | HQ] & HM & Hs & Hr).
      * left. exists M. split; [apply filter_In; auto | assumption].
      * right. exists Q, M. auto.
Qed.

Lemma in_shown_as_iff (data : dataset) (sort_by_price : bool) (rs : list Row) (r : Row) :
  In r (shown_as data sort_by_price rs) <->
  exists r0, In r0 rs /\ r = (if sort_by_price then annotate data r0 else r0).
Proof.
  unfold shown_as. destruct sort_by_price.
  - rewrite in_map_iff. split; intros (r0 & H1 & H2).
    + exists r0. split; [|now symmetry].
      eapply Permutation_in; [apply sort_rows_perm | exact H2].
    + exists r0. split; [now symmetry|].
      eapply Permutation_in; [apply Permutation_sym, sort_rows_perm | exact H1].
  - split; [intros H; now exists r | intros (r0 & H & ->); assumption].
Qed.

Lemma ci_substring_trans (a b c : string) :
  ci_substring a b -> ci_substring b c -> ci_substring a c.
Proof.
  intros (p & q & Hb) (p' & q' & Hc). exists (p' +++ p), (q +++ q').
  rewrite Hc, Hb. now rewrite !append_assoc.
Qed.

Lemma lower_empty (s : string) : Text.lower s = "" -> s = "".
Proof. destruct s; [reflexivity | discriminate]. Qed.

Lemma ci_substring_of_empty (f : string) : ci_substring f "" -> f = "".
Proof.
  intros (p & q & H). simpl in H. destruct p; [|discriminate].
  simpl in H. apply lower_empty. destruct (Text.lower f); [reflexivity | discriminate].
Qed.

Lemma shown_widens (f f' : string) (P : Provider) (M : Model) :
  Text.lower f <> "all" -> ci_substring f' f ->
  shown (normalize f) P M = true -> shown (normalize f') P M = true.
Proof.
  intros Hall Hsub.
  assert (Ef : normalize f = f).
  { destruct (normalize_cases f) as [[E _] | E]; [contradiction | assumption]. }
  rewrite Ef, !shown_iff.
  destruct (normalize_cases f') as [[_ E] | E]; rewrite E; [intros _; now left|].
  unfold selects. intros [-> | H].
  - left. now apply ci_substring_of_empty.
  - right. repeat destruct H as [H | H];
      eauto using ci_substring_trans.
Qed.

(** X4. Shortening the filter never hides a row: if [f'] is a
    case-insensitive substring of the filter [f], and [f] is not ["all"],
    every row of the run on [f] is a row of the run on [f'] (with the same
    sort flag), and when the run on [f'] finds nothing and returns 1 so
    does the run on [f]. *)
Theorem shorter_filter_shows_more :
  forall (data : dataset) (f f' : string) (sort_by_price : bool) (o o' : outcome),
    list_prices data f sort_by_price = Ok o ->
    list_prices data f' sort_by_price = Ok o' ->
    Text.lower f <> "all" ->
    ci_substring f' f ->
    incl (rows o) (rows o')
    /\ (exit_code o' = 1 -> exit_code o = 1).
Proof.
  intros data f f' sort_by_price o o' Ho Ho' Hall Hsub.
  destruct (list_prices_traversal _ _ _ _ Ho) as (segs & Hsegs & Hrows & Hcode & _).
  destruct (list_prices_traversal _ _ _ _ Ho') as (segs' & Hsegs' & Hrows' & Hcode' & _).
  assert (Hincl : incl (traversal segs) (traversal segs')).
  { intros r Hr. apply (in_traversal _ _ _ r Hsegs) in Hr as (P & M & HP & HM & Hs & Hr).
    apply (in_traversal _ _ _ r Hsegs'). exists P, M.
    repeat split; try assumption. now apply (shown_widens f f'). }
  split.
  - intros r Hr. rewrite Hrows in Hr. rewrite Hrows'.
    apply in_shown_as_iff in Hr as (r0 & Hr0 & ->).
    apply in_shown_as_iff. exists r0. split; [now apply Hincl | reflexivity].
  - rewrite Hcode, Hcode'.
    destruct (String.eqb (normalize f') "") eqn:E'; simpl; [discriminate|].
    destruct (traversal segs') eqn:Et'; [|discriminate]. intros _.
    assert (Et : traversal segs = []).
    { destruct (traversal segs) as [|r t]; [reflexivity|].
      exfalso. exact (Hincl r (or_introl eq_refl)). }
    rewrite Et.
    assert (Ef : normalize f = f).
    { destruct (normalize_cases f) as [[E _] | E]; [contradiction | assumption]. }
    rewrite Ef.
    destruct (String.eqb f "") eqn:E; [|reflexivity].
    apply String.eqb_eq in E. subst f. apply ci_substring_of_empty in Hsub. subst f'.
    discriminate E'.
Qed.

(** ** A run without rows *)

Lemma traversal_nil_no_rows (segs : list segment) :
  traversal segs = [] -> filter (fun seg => has_rows (seg_rows seg)) segs = [].
Proof.
  induction segs as [|seg segs IH]; [reflexivity|].
  unfold traversal. simpl. fold (traversal segs). intros H.
  apply app_eq_nil in H as [H1 H2]. rewrite H1. simpl. now apply IH.
Qed.

(** X5. When no row matches, an unsorted run prints nothing but the
    no-match message, and nothing at all if the filter is empty; a sorted
    run prints the banner of the sorted table all the same, with no table
    under it, and then the message. The message comes, and 1 is returned,
    exactly when the effective filter is not empty. *)
Theorem output_without_rows :
  forall (data : dataset) (filter_str : string) (sort_by_price : bool) (o : outcome),
    list_prices data filter_str sort_by_price = Ok o ->
    rows o = [] ->
    printed o
    = (if sort_by_price then sorted_banner else [])
      ++ (if String.eqb (normalize filter_str) "" then []
          else [no_match_message (normalize filter_str)])
    /\ exit_code o = (if String.eqb (normalize filter_str) "" then 0 else 1).
Proof.
  intros data filter_str sort_by_price o Hrun Hrows.
  destruct (list_prices_traversal _ _ _ _ Hrun) as (segs & Hsegs & Er & Hcode & _).
  assert (Et : traversal segs = []).
  { rewrite Er in Hrows. now apply shown_as_nil_iff in Hrows. }
  rewrite Et in Hcode. split.
  - destruct sort_by_price.
    + rewrite (list_prices_sorted_printed _ _ _ Hrun), Hrows, Hcode. simpl.
      now destruct (String.eqb (normalize filter_str) "").
    + unfold list_prices in Hrun. rewrite providers_loop_traversal, Hsegs in Hrun.
      cbv beta iota zeta delta [bind] in Hrun.
      assert (Hout : stdout (finish data false (fold_left (emit_segment false) segs initial))
                     = []).
      { rewrite loop_unsorted_stdout; rewrite (traversal_nil_no_rows segs Et); reflexivity. }
      assert (Hany : matched_any (finish data false
                                    (fold_left (emit_segment false) segs initial)) = false).
      { unfold finish.
        destruct (table_rows (fold_left (emit_segment false) segs initial));
          simpl; now rewrite loop_matched_any, Et. }
      rewrite Hany, Hout in Hrun. simpl in Hrun.
      destruct (String.eqb (normalize filter_str) ""); simpl in Hrun;
        injection Hrun as <-; reflexivity.
  - rewrite Hcode. now destruct (String.eqb (normalize filter_str) "").
Qed.

(** ** What a run can raise *)

















(** ** The provider column of a sorted run *)

Lemma finds_model_iff (i : string) (models : list Model) :
  finds_model i models = true <-> exists M, In M models /\ model_id_key M = Some i.
Proof.
  induction models as [|M models IH]; simpl.
  - split; [discriminate | intros (M & [] & _)].
  - unfold has_id at 1. destruct (model_id_key M) as [j|] eqn:Ej.
    + destruct (String.eqb_spec j i) as [->|Hne].
      * split; [intros _; exists M; auto | reflexivity].
      * rewrite IH. split.
        -- intros (N & HN & Hi). exists N. auto.
        -- intros (N & [<- | HN] & Hi); [congruence | exists N; auto].
    + rewrite IH. split.
      * intros (N & HN & Hi). exists N. auto.
      * intros (N & [<- | HN] & Hi); [congruence | exists N; auto].
Qed.

Lemma annotate_app (before after : dataset) (row : Row) :
  annotate (before ++ after) row = annotate after (annotate before row).
Proof.
  revert row; induction before as [|P before IH]; intros row; simpl; [reflexivity|].
  destruct (finds_model _ _); apply IH.
Qed.

(** The scan as a search from the end of the data. *)
Lemma annotate_find (data : dataset) (row : Row) :
  row_Provider row = None ->
  annotate data row
  = match find (owns (row_Model row)) (rev data) with
    | Some P => set_provider row (name_of P)
    | None => row
    end.
Proof.
  intros Hnone. induction data as [|P data IH] using rev_ind; [reflexivity|].
  rewrite annotate_app, rev_app_distr. simpl. rewrite annotate_model.
  unfold owns at 1. destruct (finds_model (row_Model row) (models_of P)); [|exact IH].
  rewrite IH. destruct (find _ _); destruct row; reflexivity.
Qed.

Lemma make_row_keys (M : Model) (r : Row) :
  make_row M = Ok r ->
  row_Name r = display_name M
  /\ row_Model r = get_or (model_id_key M) ""
  /\ row_Provider r = None.
Proof.
  unfold make_row, display_name.
  destruct (format_price _); simpl; [|discriminate].
  destruct (format_price _); simpl; [|discriminate].
  destruct (format_price _); simpl; [|discriminate].
  destruct (format_price _); simpl; [|discriminate].
  destruct (price_sum _); simpl; [|discriminate].
  intros [= <-]. simpl. auto.
Qed.

Lemma sorted_row_origin (data : dataset) (filter_str : string) (o : outcome) (r : Row) :
  list_prices data filter_str true = Ok o ->
  (In r (rows o) <->
   exists P M r0, In P data /\ In M (models_of P)
                  /\ shown (normalize filter_str) P M = true
                  /\ make_row M = Ok r0 /\ r = annotate data r0).
Proof.
  intros Hrun. destruct (list_prices_traversal _ _ _ _ Hrun) as (segs & Hsegs & Hrows & _).
  rewrite Hrows, in_shown_as_iff. split.
  - intros (r0 & Hin & ->). apply (in_traversal _ _ _ _ Hsegs) in Hin.
    destruct Hin as (P & M & HP & HM & Hs & Hr). exists P, M, r0. auto.
  - intros (P & M & r0 & HP & HM & Hs & Hr & ->). exists r0. split; [|reflexivity].
    apply (in_traversal _ _ _ _ Hsegs). exists P, M. auto.
Qed.

(** X8. The provider column of a sorted run: every row carries the name of
    the last provider of the data that has a model with the row's model
    id, and no ["Provider"] key when no provider has one (the model of the
    row has no ["id"] key, and no model has the id [""]). *)
Theorem sorted_row_names_the_last_owner :
  forall (data : dataset) (filter_str : string) (o : outcome) (r : Row),
    list_prices data filter_str true = Ok o ->
    In r (rows o) ->
    row_Provider r = option_map name_of (find (owns (row_Model r)) (rev data)).
Proof.
  intros data filter_str o r Hrun Hin.
  apply (sorted_row_origin _ _ _ _ Hrun) in Hin.
  destruct Hin as (P & M & r0 & _ & _ & _ & Hr & ->).
  apply make_row_keys in Hr as (_ & _ & Hnone).
  rewrite annotate_model, (annotate_find _ _ Hnone).
  destruct (find _ _); [reflexivity | exact Hnone].
Qed.

Lemma mapM_each {A B : Type} (f : A -> result B) (l : list A) (bs : list B) (a : A) :
  mapM f l = Ok bs -> In a l -> exists b, f a = Ok b /\ In b bs.
Proof.
  intros H. apply mapM_Forall2 in H. induction H as [|a' b' l bs Hab _ IH]; simpl.
  - intros [].
  - intros [<- | Hin]; [exists b'; auto|].
    destruct (IH Hin) as (b & Hb & Hbs). exists b. auto.
Qed.

Lemma shown_model_has_row (f : string) (data : dataset) (segs : list segment)
    (P : Provider) (M : Model) :
  mapM (provider_segment f) data = Ok segs ->
  In P data -> In M (models_of P) -> shown f P M = true ->
  exists r, make_row M = Ok r /\ In r (traversal segs).
Proof.
  intros Hsegs HP HM Hs.
  destruct (mapM_each _ _ _ _ Hsegs HP) as (seg & Hseg & _).
  unfold provider_segment in Hseg.
  destruct (mapM make_row (selected f P)) as [rs|] eqn:Ers; [|discriminate].
  assert (Hsel : In M (selected f P)) by (apply filter_In; auto).
  destruct (mapM_each _ _ _ _ Ers Hsel) as (r & Hr & _).
  exists r. split; [assumption|].
  apply (in_traversal _ _ _ _ Hsegs). exists P, M. auto.
Qed.

(** X9. When the model ids tell the providers apart, a sorted run names
    the right provider: if every provider that has a model with the id of
    the model [M] of [P] has the name of [P], the row of [M] is shown with
    that name in its provider column. *)
Theorem sorted_row_names_its_provider :
  forall (data : dataset) (filter_str : string) (o : outcome)
         (P : Provider) (M : Model) (i : string),
    list_prices data filter_str true = Ok o ->
    In P data -> In M (models_of P) ->
    selects (normalize filter_str) P M ->
    model_id_key M = Some i ->
    (forall Q N, In Q data -> In N (models_of Q) -> model_id_key N = Some i ->
                 name_of Q = name_of P) ->
    exists r0, make_row M = Ok r0 /\ In (set_provider r0 (name_of P)) (rows o).
Proof.
  intros data filter_str o P M i Hrun HP HM Hsel Hid Hown.
  apply shown_iff in Hsel.
  destruct (list_prices_traversal _ _ _ _ Hrun) as (segs & Hsegs & _).
  destruct (shown_model_has_row _ _ _ _ _ Hsegs HP HM Hsel) as (r0 & Hr0 & _).
  exists r0. split; [assumption|].
  apply (sorted_row_origin _ _ _ _ Hrun). exists P, M, r0.
  repeat split; try assumption.
  destruct (make_row_keys _ _ Hr0) as (_ & Hmodel & Hnone).
  rewrite (annotate_find _ _ Hnone), Hmodel, Hid. simpl.
  destruct (find (owns i) (rev data)) as [Q|] eqn:Ef.
  - apply find_some in Ef as [HQ Hfinds]. apply in_rev in HQ.
    apply finds_model_iff in Hfinds as (N & HN & HNid).
    now rewrite (Hown Q N HQ HN HNid).
  - apply in_rev in HP. apply (find_none _ _ Ef P) in HP. unfold owns in HP.
    assert (Hyes : finds_model i (models_of P) = true)
      by (apply finds_model_iff; exists M; auto).
    congruence.
Qed.

(** ** Rows of models without prices *)

Lemma format_price_missing (d : dict) (key : string) :
  dict_get d key = None -> format_price (get_or (dict_get d key) PNone) = Ok "".
Proof. intros ->. reflexivity. Qed.

(** X10. A model whose price mapping has none of the four price keys (so
    also a model whose ["prices"] is absent, a list or anything but a
    dict) gives a row with four empty price cells and the price sum 0.0;
    the row is named by the model's name, or by its id when the name is
    absent or empty. *)
Theorem make_row_unpriced :
  forall M : Model,
    unpriced M ->
    make_row M = Ok {| row_Name := display_name M;
                       row_Input := "";
                       row_Write := "";
                       row_Read := "";
                       row_Out := "";
                       row_Model := get_or (model_id_key M) "";
                       row_PriceSum := Float.zero;
                       row_Provider := None |}.
Proof.
  intros M H. unfold unpriced, price_keys in H.
  inversion H as [|? ? Hi H1]; subst. inversion H1 as [|? ? Hw H2]; subst.
  inversion H2 as [|? ? Hr H3]; subst. inversion H3 as [|? ? Ho _]; subst.
  unfold make_row.
  rewrite (format_price_missing _ _ Hi), (format_price_missing _ _ Hw),
    (format_price_missing _ _ Hr), (format_price_missing _ _ Ho).
  unfold price_sum, price_vals. rewrite Hi, Ho. reflexivity.
Qed.

(** ** Sorting and not sorting *)



(** ** The summary of the interactive mode *)

Lemma leb_refl (a : float) : not_nan a -> Float.leb a a = true.
Proof. intros H. apply FloatOrder.leb_rank; try assumption. now right. Qed.

Lemma py_min_in (x : float) (rest : list float) : In (py_min x rest) (x :: rest).
Proof.
  unfold py_min. revert x; induction rest as [|y rest IH]; intros x; simpl; [now left|].
  destruct (Float.ltb y x).
  - right. apply IH.
  - destruct (IH x) as [H | H]; [now left | right; now right].
Qed.

Lemma py_max_in (x : float) (rest : list float) : In (py_max x rest) (x :: rest).
Proof.
  unfold py_max. revert x; induction rest as [|y rest IH]; intros x; simpl; [now left|].
  destruct (Float.ltb x y).
  - right. apply IH.
  - destruct (IH x) as [H | H]; [now left | right; now right].
Qed.

Lemma py_min_least (x : float) (rest : list float) :
  Forall not_nan (x :: rest) ->
  Forall (fun p => Float.leb (py_min x rest) p = true) (x :: rest).
Proof.
  unfold py_min. revert x; induction rest as [|y rest IH]; intros x Hnan.
  - constructor; [|constructor]. apply leb_refl. now inversion Hnan.
  - inversion Hnan as [|? ? Hx Hrest]; subst. inversion Hrest as [|? ? Hy Hrest']; subst.
    simpl. destruct (Float.ltb y x) eqn:E.
    + assert (H := IH y (Forall_cons _ Hy Hrest')). inversion H as [|? ? Hmy Hmrest]; subst.
      constructor; [|assumption].
      eapply FloatOrder.leb_trans; [exact Hmy | now apply FloatOrder.ltb_leb].
    + assert (H := IH x (Forall_cons _ Hx Hrest')). inversion H as [|? ? Hmx Hmrest]; subst.
      constructor; [assumption|]. constructor; [|assumption].
      eapply FloatOrder.leb_trans; [exact Hmx | now apply FloatOrder.not_ltb_leb].
Qed.

Lemma py_max_greatest (x : float) (rest : list float) :
  Forall not_nan (x :: rest) ->
  Forall (fun p => Float.leb p (py_max x rest) = true) (x :: rest).
Proof.
  unfold py_max. revert x; induction rest as [|y rest IH]; intros x Hnan.
  - constructor; [|constructor]. apply leb_refl. now inversion Hnan.
  - inversion Hnan as [|? ? Hx Hrest]; subst. inversion Hrest as [|? ? Hy Hrest']; subst.
    simpl. destruct (Float.ltb x y) eqn:E.
    + assert (H := IH y (Forall_cons _ Hy Hrest')). inversion H as [|? ? Hmy Hmrest]; subst.
      constructor; [|assumption].
      apply (FloatOrder.leb_trans _ y); [now apply FloatOrder.ltb_leb | exact Hmy].
    + assert (H := IH x (Forall_cons _ Hx Hrest')). inversion H as [|? ? Hmx Hmrest]; subst.
      constructor; [assumption|]. constructor; [|assumption].
      apply (FloatOrder.leb_trans _ x); [now apply FloatOrder.not_ltb_leb | exact Hmx].
Qed.

(** X12. The summary of the interactive mode has one entry per provider,
    in the order of the data, with the provider's name, id and number of
    models (priced or not). The least and the greatest price of an entry
    are both 0.0 when the provider has no priced model; otherwise they are
    prices of the provider, and bound all its prices when no price is
    NaN. *)
Theorem summarize_spec :
  forall (data : dataset) (entries : list summary_entry),
    summarize data = Ok entries -> Forall2 summarizes data entries.
Proof.
  induction data as [|P data IH]; intros entries; simpl.
  - intros [= <-]. constructor.
  - destruct (summary_prices (models_of P) []) as [prices|] eqn:Ep; simpl; [|discriminate].
    destruct (summarize data) as [es|] eqn:Es; simpl.
    2: { destruct prices; discriminate. }
    intros H.
    assert (Hentry : exists entry, entries = entry :: es /\ summarizes P entry).
    { destruct prices as [|x rest]; injection H as <-; eexists; (split; [reflexivity|]);
        unfold summarizes; cbn [entry_name entry_id entry_count entry_min entry_max];
        repeat (split; [reflexivity|]).
      - exists []. split; [exact Ep|]. split; reflexivity.
      - exists (x :: rest). split; [exact Ep|].
        split; [apply py_min_in|]. split; [apply py_max_in|].
        intros Hnan. pose proof (py_min_least x rest Hnan) as Hmin.
        pose proof (py_max_greatest x rest Hnan) as Hmax.
        rewrite Forall_forall in *. intros p Hp. split; [now apply Hmin | now apply Hmax]. }
    destruct Hentry as (entry & -> & Hentry). constructor; [assumption | now apply IH].
Qed.

Lemma convertible_vals (raw : pyval) :
  convertible raw -> exists f, price_val raw = Ok f /\ summary_val raw = Ok f.
Proof.
  unfold price_val, summary_val. intros [Hf | (Hi & f & Hfl)].
  - rewrite Hf. simpl. now exists Float.zero.
  - rewrite Hi, andb_true_r. destruct (truthy raw); [now exists f | now exists Float.zero].
Qed.

Lemma summary_try_convertible (d : dict) (prices : list float) :
  convertible (get_or (dict_get d "input_mtok") (PInt 0)) ->
  convertible (get_or (dict_get d "output_mtok") (PInt 0)) ->
  exists input_val output_val,
    price_vals d = Ok (input_val, output_val)
    /\ summary_try d prices
       = Ok (if Float.ltb Float.zero input_val || Float.ltb Float.zero output_val
             then prices ++ [Float.add input_val output_val]
             else prices).
Proof.
  intros Hi Ho.
  destruct (convertible_vals _ Hi) as (iv & Hpi & Hsi).
  destruct (convertible_vals _ Ho) as (ov & Hpo & Hso).
  exists iv, ov. unfold price_vals, summary_try. rewrite Hpi, Hpo, Hsi, Hso. simpl.
  split; reflexivity.
Qed.

Lemma summary_prices_from (models : list Model) (prices : list float) :
  Forall convertible_prices models ->
  summary_prices models prices
  = (sums <- mapM (fun M => price_sum (prices_of M)) (filter paid models) ;;
     Ok (prices ++ sums)).
Proof.
  intros H. revert prices. induction H as [|M models [Hi Ho] _ IH]; intros prices.
  - simpl. now rewrite app_nil_r.
  - destruct (summary_try_convertible (prices_of M) prices Hi Ho)
      as (iv & ov & Hvals & Htry).
    assert (Hpaid : paid M = Float.ltb Float.zero iv || Float.ltb Float.zero ov)
      by (unfold paid; now rewrite Hvals).
    assert (Hsum : price_sum (prices_of M) = Ok (Float.add iv ov))
      by (unfold price_sum; now rewrite Hvals).
    assert (Hstep : summary_prices (M :: models) prices
                    = summary_prices models
                        (if Float.ltb Float.zero iv || Float.ltb Float.zero ov
                         then prices ++ [Float.add iv ov] else prices)).
    { cbn [summary_prices]. unfold prices_of in Hvals, Htry.
      destruct (get_or (model_prices_key M) (PDict [])) as [| | | | | |d];
        try (injection Hvals as <- <-; reflexivity).
      now rewrite Htry. }
    rewrite Hstep, IH. cbn [filter]. rewrite Hpaid.
    destruct (Float.ltb Float.zero iv || Float.ltb Float.zero ov); [|reflexivity].
    cbn [mapM]. rewrite Hsum. cbv beta iota delta [bind].
    destruct (mapM _ (filter paid models)); [|reflexivity].
    now rewrite <- app_assoc.
Qed.

(** X13. The prices that the summary ranges over are sort keys of the
    listing: for models whose input and output prices are falsy or
    convertible numbers, bools or texts, the price list of a provider is
    the list of the price sums (as [list_prices] computes them) of its
    models with a positive input or output price, in order. *)
Theorem summary_prices_are_price_sums :
  forall models : list Model,
    Forall convertible_prices models ->
    summary_prices models []
    = mapM (fun M => price_sum (prices_of M)) (filter paid models).
Proof.
  intros models H. rewrite (summary_prices_from _ _ H).
  destruct (mapM _ (filter paid models)); reflexivity.
Qed.

(** ** Integer prices are shown exactly *)

Lemma digits2_pos_size (p : positive) : digits2_pos p = Pos.size p.
Proof. induction p; simpl; now rewrite ?IHp. Qed.

Lemma digits2_bound (p : positive) : Zpos p < 2 ^ 53 -> Zpos (digits2_pos p) <= 53.
Proof.
  intros Hp. rewrite digits2_pos_size.
  destruct (Z_le_gt_dec (Zpos (Pos.size p)) 53) as [H | H]; [assumption | exfalso].
  pose proof (Pos.size_le p) as Hle.
  assert (H54 : 2 ^ 54 <= 2 ^ Zpos (Pos.size p)) by (apply Z.pow_le_mono_r; lia).
  assert (Hpow : 2 ^ Zpos (Pos.size p) <= Zpos p~0).
  { rewrite <- (Pos2Z.inj_pow 2 (Pos.size p)). exact Hle. }
  change (2 ^ 54) with (2 * 2 ^ 53) in H54. lia.
Qed.

Lemma iter_xO_digits (p d : positive) :
  Zpos (digits2_pos (Pos.iter xO p d)) = Zpos (digits2_pos p) + Zpos d.
Proof.
  induction d as [|d IH] using Pos.peano_ind.
  - simpl. lia.
  - rewrite Pos.iter_succ. simpl digits2_pos. lia.
Qed.

Lemma iter_xO_value (p d : positive) : Zpos (Pos.iter xO p d) = Zpos p * 2 ^ Zpos d.
Proof.
  induction d as [|d IH] using Pos.peano_ind.
  - simpl. lia.
  - rewrite Pos.iter_succ, Pos2Z.inj_succ, Z.pow_succ_r by lia.
    rewrite Pos2Z.inj_xO, IH. lia.
Qed.

(** A mantissa of 53 bits is kept as it is. *)
Lemma shr_fexp_canonical (mz : positive) (ez : Z) :
  Zpos (digits2_pos mz) = 53 -> -1074 <= ez ->
  shr_fexp Float.prec Float.emax (Zpos mz) ez loc_Exact
  = ({| shr_m := Zpos mz; shr_r := false; shr_s := false |}, ez).
Proof.
  intros Hd He.
  assert (Hshift : fexp Float.prec Float.emax (Zdigits2 (Zpos mz) + ez) - ez = 0).
  { unfold fexp, emin, Float.prec, Float.emax. simpl Zdigits2. rewrite Hd. lia. }
  unfold shr_fexp. rewrite Hshift. reflexivity.
Qed.

Lemma binary_round_aux_canonical (sx : bool) (mz : positive) (ez : Z) :
  Zpos (digits2_pos mz) = 53 -> -1074 <= ez <= 971 ->
  binary_round_aux Float.prec Float.emax sx (Zpos mz) ez loc_Exact
  = S754_finite sx mz ez.
Proof.
  intros Hd He. unfold binary_round_aux.
  rewrite (shr_fexp_canonical mz ez Hd) by lia.
  cbn [shr_m loc_of_shr_record round_nearest_even].
  rewrite (shr_fexp_canonical mz ez Hd) by lia.
  cbn [shr_m].
  replace (ez <=? Float.emax - Float.prec) with true; [reflexivity|].
  symmetry. apply Z.leb_le. unfold Float.emax, Float.prec. lia.
Qed.

Lemma binary_round_small (sx : bool) (p : positive) :
  Zpos p < 2 ^ 53 ->
  exists mz ez,
    binary_round Float.prec Float.emax sx p 0 = S754_finite sx mz ez
    /\ ez <= 0 /\ Zpos mz = Zpos p * 2 ^ (- ez).
Proof.
  intros Hp. pose proof (digits2_bound p Hp) as Hd.
  assert (Hpos : 0 < Zpos (digits2_pos p)) by lia.
  unfold binary_round, shl_align.
  assert (Hf : fexp Float.prec Float.emax (Zpos (digits2_pos p) + 0)
               = Zpos (digits2_pos p) - 53).
  { unfold fexp, emin, Float.prec, Float.emax. lia. }
  rewrite Hf. destruct (Zpos (digits2_pos p) - 53 - 0) as [|d|d] eqn:Ed; [| lia |].
  - exists p, 0. split; [|split; [lia | simpl; lia]].
    apply binary_round_aux_canonical; lia.
  - exists (Pos.iter xO p d), (Zpos (digits2_pos p) - 53).
    split; [|split; [lia|]].
    + apply binary_round_aux_canonical; [|lia]. rewrite iter_xO_digits. lia.
    + rewrite iter_xO_value. f_equal. f_equal. lia.
Qed.

Lemma hundredths_exact (mz : positive) (ez z : Z) :
  ez <= 0 -> Zpos mz = z * 2 ^ (- ez) -> Float.hundredths mz ez = z * 100.
Proof.
  intros He Hm. unfold Float.hundredths. destruct (0 <=? ez) eqn:E.
  - apply Z.leb_le in E. assert (ez = 0) by lia. subst ez. simpl in *. lia.
  - apply Z.leb_gt in E. unfold Float.div_half_even.
    assert (Hd : 0 < 2 ^ (- ez)) by (apply Z.pow_pos_nonneg; lia).
    replace (Zpos mz * 100) with (z * 100 * 2 ^ (- ez)) by (rewrite Hm; ring).
    rewrite Z.mod_mul, Z.div_mul by lia. simpl.
    destruct (2 ^ (- ez)); try reflexivity; lia.
Qed.

Lemma fixed2_whole (neg : bool) (z : Z) :
  0 <= z ->
  Float.fixed2 neg (z * 100)
  = Float.sign_str neg +++ Text.of_N (Z.to_N z) +++ ".00".
Proof.
  intros Hz. unfold Float.fixed2. rewrite Z.div_mul, Z.mod_mul by lia. reflexivity.
Qed.

(** X14. An integer price below 2^53 in magnitude is shown exactly: a
    dollar sign, a minus sign when it is negative, its decimal digits and
    [.00]. *)
Theorem format_price_of_integer :
  forall z : Z,
    Z.abs z < 2 ^ 53 ->
    format_price (PInt z)
    = Ok ("$" +++ (if z <? 0 then "-" else "") +++ Text.of_N (Z.to_N (Z.abs z)) +++ ".00").
Proof.
  intros z Hz. unfold format_price, py_float, Float.of_int, Float.of_Z, binary_normalize.
  destruct z as [|p|p].
  - reflexivity.
  - destruct (binary_round_small false p Hz) as (mz & ez & -> & He & Hm).
    simpl Float.format_2f.
    rewrite (hundredths_exact mz ez (Zpos p) He Hm), fixed2_whole by lia.
    reflexivity.
  - destruct (binary_round_small true p Hz) as (mz & ez & -> & He & Hm).
    simpl Float.format_2f.
    rewrite (hundredths_exact mz ez (Zpos p) He Hm), fixed2_whole by lia.
    reflexivity.
Qed.

(** ** [matches_filter] *)









(** ** The shape of the summary *)

Lemma length_ljust_any (s : string) (w : nat) :
  String.length (Text.ljust s w) = Nat.max (String.length s) w.
Proof. unfold Text.ljust. rewrite length_app_string, length_repeat_char. lia. Qed.

Lemma length_rjust_any (s : string) (w : nat) :
  String.length (Text.rjust s w) = Nat.max (String.length s) w.
Proof. unfold Text.rjust. rewrite length_app_string, length_repeat_char. lia. Qed.

Ltac measure :=
  repeat first [ rewrite length_print | rewrite length_app_string
               | rewrite length_ljust_any | rewrite length_rjust_any
               | rewrite length_repeat_char | progress cbn [String.length] ].

Lemma summarize_keys (data : dataset) (entries : list summary_entry) :
  summarize data = Ok entries ->
  map entry_name entries = map name_of data /\ map entry_id entries = map id_of data.
Proof.
  revert entries; induction data as [|P data IH]; intros entries; simpl.
  - intros [= <-]. split; reflexivity.
  - destruct (summary_prices (models_of P) []) as [prices|]; simpl; [|discriminate].
    destruct (summarize data) as [es|]; simpl.
    + destruct (IH es eq_refl) as [Hn Hi].
      destruct prices; intros [= <-]; simpl; rewrite Hn, Hi; split; reflexivity.
    + destruct prices; discriminate.
Qed.

Lemma py_max_len_value (lens : list nat) (n : nat) :
  py_max_len lens = Ok n -> n = max_list lens.
Proof. destruct lens; [discriminate | now intros [= <-]]. Qed.

(** X16. The summary of the interactive mode, when it is printed, is a bar,
    the title, a bar, the header, the separator, one line per provider and
    a bar. With [n] and [i] the lengths of the longest provider name and
    id, the separator is [n + i + 39] characters wide and no provider line
    is narrower; the header is [max n 4 + max i 2 + 39] wide, wider than
    the separator when every name is shorter than [Name] or every id
    shorter than [ID]; and the bars are [n + i + 50] wide, eleven
    characters wider than the separator (each line ends with a newline). *)
Theorem print_summary_shape :
  forall (data : dataset) (lines : list string),
    print_summary data = Ok lines ->
    exists bar header separator body,
      lines = [bar; print "Available Providers:"; bar; header; separator]
              ++ body ++ [bar]
      /\ String.length bar = (name_width data + id_width data + 51)%nat
      /\ String.length header
         = (Nat.max (name_width data) 4 + Nat.max (id_width data) 2 + 40)%nat
      /\ String.length separator = (name_width data + id_width data + 40)%nat
      /\ List.length body = List.length data
      /\ Forall (fun line =>
                   (name_width data + id_width data + 40 <= String.length line)%nat)
                body.
Proof.
  intros data lines H. unfold print_summary in H.
  destruct (summarize data) as [entries|] eqn:Es; [|discriminate].
  cbv beta iota delta [bind] in H.
  destruct (py_max_len (map (fun p => String.length (entry_name p)) entries))
    as [n|] eqn:En; [|discriminate].
  destruct (py_max_len (map (fun p => String.length (entry_id p)) entries))
    as [i|] eqn:Ei; [|discriminate].
  cbv zeta in H. injection H as <-.
  destruct (summarize_keys _ _ Es) as [Hnames Hids].
  apply py_max_len_value in En, Ei.
  assert (Hn : name_width data = n).
  { unfold name_width.
    rewrite En, <- (map_map entry_name String.length), Hnames. now rewrite map_map. }
  assert (Hi : id_width data = i).
  { unfold id_width.
    rewrite Ei, <- (map_map entry_id String.length), Hids. now rewrite map_map. }
  rewrite Hn, Hi. do 4 eexists. split; [reflexivity|].
  split; [measure; lia|]. split; [measure; lia|]. split; [measure; lia|].
  split.
  { rewrite length_map, <- (length_map entry_name), Hnames. apply length_map. }
  apply Forall_forall. intros line Hline. apply in_map_iff in Hline as (p & <- & Hp).
  assert (Hpn : (String.length (entry_name p) <= n)%nat).
  { rewrite En. apply max_list_bound. apply in_map_iff. now exists p. }
  assert (Hpi : (String.length (entry_id p) <= i)%nat).
  { rewrite Ei. apply max_list_bound. apply in_map_iff. now exists p. }
  measure. lia.
Qed.

(** ** Which rows carry a provider *)

(** X17. Only sorting fills the provider column. The rows of a grouped run
    carry no ["Provider"] key; in a sorted run over data in which every
    model has an ["id"] key, every row carries one. *)
Theorem provider_column_only_when_sorted :
  forall (data : dataset) (filter_str : string) (sort_by_price : bool) (o : outcome),
    list_prices data filter_str sort_by_price = Ok o ->
    (sort_by_price = false -> Forall (fun r => row_Provider r = None) (rows o))
    /\ (sort_by_price = true ->
        (forall P M, In P data -> In M (models_of P) -> model_id_key M <> None) ->
        Forall (fun r => row_Provider r <> None) (rows o)).
Proof.
  intros data filter_str sort_by_price o Hrun. split; intros ->.
  - destruct (list_prices_traversal _ _ _ _ Hrun) as (segs & Hsegs & Hrows & _).
    apply Forall_forall. intros r Hr. rewrite Hrows in Hr. unfold shown_as in Hr.
    apply (in_traversal _ _ _ _ Hsegs) in Hr as (P & M & _ & _ & _ & Hrow).
    now apply make_row_keys in Hrow.
  - intros Hids. apply Forall_forall. intros r Hr.
    apply (sorted_row_origin _ _ _ _ Hrun) in Hr
      as (P & M & r0 & HP & HM & _ & Hrow & ->).
    destruct (make_row_keys _ _ Hrow) as (_ & Hmodel & Hnone).
    rewrite (annotate_find _ _ Hnone), Hmodel.
    destruct (model_id_key M) as [i|] eqn:Ei; [|now elim (Hids P M HP HM)].
    simpl. destruct (find (owns i) (rev data)) as [Q|] eqn:Ef; [discriminate|].
    apply in_rev in HP. apply (find_none _ _ Ef P) in HP. unfold owns in HP.
    assert (Hyes : finds_model i (models_of P) = true)
      by (apply finds_model_iff; exists M; auto).
    congruence.
Qed.

(** * The added properties on sample runs *)

Lemma print_table_is_rectangular_witness :
  rows Sample.all_sorted <> []
  /\ List.length (print_table (rows Sample.all_sorted))
     = (2 + List.length (rows Sample.all_sorted))%nat
  /\ Forall (fun line => String.length line = table_width (rows Sample.all_sorted))
            (print_table (rows Sample.all_sorted)).
Proof.
  assert (H : rows Sample.all_sorted <> []) by (vm_compute; discriminate).
  split; [exact H|]. exact (print_table_is_rectangular (rows Sample.all_sorted) H).
Defined.

Lemma main_with_arguments_witness :
  ["zzz"; "--sort"] <> []
  /\ main Sample.data ["zzz"; "--sort"] None
     = list_prices Sample.data
         (last (filter (fun arg => negb (is_sort_flag arg)) ["zzz"; "--sort"]) "")
         (existsb is_sort_flag ["zzz"; "--sort"]).
Proof.
  assert (H : ["zzz"; "--sort"] <> []) by discriminate.
  split; [exact H|]. exact (main_with_arguments Sample.data ["zzz"; "--sort"] None H).
Defined.

Lemma interactive_entry_witness :
  print_summary Sample.data = Ok Cases.summary
  /\ blank "  " = true
  /\ main Sample.data [] (Some "  ")
     = Ok {| printed := Cases.summary ++ [prompt; print "No filter provided. Exiting."];
             rows := [];
             exit_code := 0 |}.
Proof.
  assert (H : print_summary Sample.data = Ok Cases.summary) by (vm_compute; reflexivity).
  split; [exact H|]. split; [reflexivity|].
  exact (proj1 (interactive_entry Sample.data "  " Cases.summary H) eq_refl).
Defined.

Lemma shorter_filter_shows_more_witness :
  list_prices Sample.data "hai" false = Ok Sample.hai_grouped
  /\ list_prices Sample.data "ha" false = Ok Cases.ha_grouped
  /\ Text.lower "hai" <> "all"
  /\ ci_substring "ha" "hai"
  /\ incl (rows Sample.hai_grouped) (rows Cases.ha_grouped)
  /\ (exit_code Cases.ha_grouped = 1 -> exit_code Sample.hai_grouped = 1).
Proof.
  assert (H1 : list_prices Sample.data "hai" false = Ok Sample.hai_grouped)
    by (vm_compute; reflexivity).
  assert (H2 : list_prices Sample.data "ha" false = Ok Cases.ha_grouped)
    by (vm_compute; reflexivity).
  assert (H3 : Text.lower "hai" <> "all") by (vm_compute; discriminate).
  assert (H4 : ci_substring "ha" "hai") by (exists "", "i"; reflexivity).
  split; [exact H1|]. split; [exact H2|]. split; [exact H3|]. split; [exact H4|].
  exact (shorter_filter_shows_more Sample.data "hai" "ha" false
           Sample.hai_grouped Cases.ha_grouped H1 H2 H3 H4).
Defined.

Lemma output_without_rows_witness :
  list_prices Sample.data "zzz" true = Ok Sample.no_match
  /\ rows Sample.no_match = []
  /\ printed Sample.no_match
     = (if true then sorted_banner else [])
       ++ (if String.eqb (normalize "zzz") "" then []
           else [no_match_message (normalize "zzz")])
  /\ exit_code Sample.no_match = (if String.eqb (normalize "zzz") "" then 0 else 1).
Proof.
  assert (H : list_prices Sample.data "zzz" true = Ok Sample.no_match)
    by (vm_compute; reflexivity).
  split; [exact H|]. split; [reflexivity|].
  exact (output_without_rows Sample.data "zzz" true Sample.no_match H eq_refl).
Defined.


Lemma sorted_row_names_the_last_owner_witness :
  list_prices Sample.data "ACME" true = Ok Sample.acme_sorted
  /\ In Cases.tiny_row (rows Sample.acme_sorted)
  /\ row_Provider Cases.tiny_row
     = option_map name_of (find (owns (row_Model Cases.tiny_row)) (rev Sample.data)).
Proof.
  assert (H : list_prices Sample.data "ACME" true = Ok Sample.acme_sorted)
    by (vm_compute; reflexivity).
  assert (Hin : In Cases.tiny_row (rows Sample.acme_sorted)) by (left; reflexivity).
  split; [exact H|]. split; [exact Hin|].
  exact (sorted_row_names_the_last_owner Sample.data "ACME" Sample.acme_sorted
           Cases.tiny_row H Hin).
Defined.

Lemma sorted_row_names_its_provider_witness :
  list_prices Sample.data "ACME" true = Ok Sample.acme_sorted
  /\ In Sample.acme Sample.data
  /\ In Sample.tiny (models_of Sample.acme)
  /\ selects (normalize "ACME") Sample.acme Sample.tiny
  /\ model_id_key Sample.tiny = Some "m1"
  /\ exists r0, make_row Sample.tiny = Ok r0
                /\ In (set_provider r0 (name_of Sample.acme)) (rows Sample.acme_sorted).
Proof.
  assert (H : list_prices Sample.data "ACME" true = Ok Sample.acme_sorted)
    by (vm_compute; reflexivity).
  assert (HP : In Sample.acme Sample.data) by (left; reflexivity).
  assert (HM : In Sample.tiny (models_of Sample.acme)) by (left; reflexivity).
  assert (Hs : selects (normalize "ACME") Sample.acme Sample.tiny)
    by (right; left; exists "", ""; reflexivity).
  split; [exact H|]. split; [exact HP|]. split; [exact HM|]. split; [exact Hs|].
  split; [reflexivity|].
  apply (sorted_row_names_its_provider Sample.data "ACME" Sample.acme_sorted
           Sample.acme Sample.tiny "m1" H HP HM Hs eq_refl).
  intros Q N [<- | [<- | []]].
  - reflexivity.
  - intros [<- | [<- | []]]; discriminate.
Defined.

Lemma make_row_unpriced_witness :
  unpriced Sample.bare
  /\ make_row Sample.bare
     = Ok {| row_Name := display_name Sample.bare;
             row_Input := "";
             row_Write := "";
             row_Read := "";
             row_Out := "";
             row_Model := get_or (model_id_key Sample.bare) "";
             row_PriceSum := Float.zero;
             row_Provider := None |}.
Proof.
  assert (H : unpriced Sample.bare) by (repeat constructor).
  split; [exact H|]. exact (make_row_unpriced Sample.bare H).
Defined.

Lemma summarize_spec_witness :
  summarize Sample.data = Ok Cases.entries
  /\ Forall2 summarizes Sample.data Cases.entries.
Proof.
  assert (H : summarize Sample.data = Ok Cases.entries) by (vm_compute; reflexivity).
  split; [exact H|]. exact (summarize_spec Sample.data Cases.entries H).
Defined.

Lemma summary_prices_are_price_sums_witness :
  Forall convertible_prices (models_of Sample.acme)
  /\ summary_prices (models_of Sample.acme) []
     = mapM (fun M => price_sum (prices_of M)) (filter paid (models_of Sample.acme)).
Proof.
  assert (H : Forall convertible_prices (models_of Sample.acme)).
  { constructor; [|constructor; [|constructor]];
      (split; right; (split; [reflexivity|]); eexists; vm_compute; reflexivity). }
  split; [exact H|]. exact (summary_prices_are_price_sums (models_of Sample.acme) H).
Defined.

Lemma format_price_of_integer_witness :
  Z.abs 3 < 2 ^ 53
  /\ format_price (PInt 3)
     = Ok ("$" +++ (if 3 <? 0 then "-" else "") +++ Text.of_N (Z.to_N (Z.abs 3)) +++ ".00").
Proof.
  assert (H : Z.abs 3 < 2 ^ 53) by reflexivity.
  split; [exact H|]. exact (format_price_of_integer 3 H).
Defined.

Lemma print_summary_shape_witness :
  print_summary Sample.data = Ok Cases.summary
  /\ exists bar header separator body,
      Cases.summary = [bar; print "Available Providers:"; bar; header; separator]
                      ++ body ++ [bar]
      /\ String.length bar = (name_width Sample.data + id_width Sample.data + 51)%nat
      /\ String.length header
         = (Nat.max (name_width Sample.data) 4 + Nat.max (id_width Sample.data) 2 + 40)%nat
      /\ String.length separator
         = (name_width Sample.data + id_width Sample.data + 40)%nat
      /\ List.length body = List.length Sample.data
      /\ Forall (fun line =>
                   (name_width Sample.data + id_width Sample.data + 40
                    <= String.length line)%nat)
                body.
Proof.
  assert (H : print_summary Sample.data = Ok Cases.summary) by (vm_compute; reflexivity).
  split; [exact H|]. exact (print_summary_shape Sample.data Cases.summary H).
Defined.

Lemma provider_column_only_when_sorted_witness :
  list_prices Sample.data "ACME" true = Ok Sample.acme_sorted
  /\ Forall (fun r => row_Provider r <> None) (rows Sample.acme_sorted).
Proof.
  assert (H : list_prices Sample.data "ACME" true = Ok Sample.acme_sorted)
    by (vm_compute; reflexivity).
  split; [exact H|].
  apply (proj2 (provider_column_only_when_sorted Sample.data "ACME" true
                  Sample.acme_sorted H) eq_refl).
  intros P M [<- | [<- | []]] [<- | [<- | []]]; discriminate.
Defined.
